(** * serv00KeepAlive: the login client of [serv00_login.py]

    A shallow embedding of [Serv00Client] (token fetch, retry loop,
    result classifier and the three detail extractors) together with the
    properties of the specification that concern it.

    Python [str] values are sequences of Unicode code points, so they are
    modelled as [list N]; this matters for [\s] and [str.strip], which
    range over Unicode white space.  The HTTP library is the environment:
    a transport function decides the outcome of every request, and the
    client threads its session and the log of requests through the calls. *)

From Stdlib Require Import ZArith NArith Ascii String DecimalString.
From stdpp Require Import gmap strings list.

Local Open Scope N_scope.

(** ** Python strings *)

Module PyStr.

(** A Python [str]: the list of its code points. *)
Abbreviation str := (list N).

(** Decoder for the UTF-8 bytes of a literal of this file; [need] bytes of
    the current character are still expected and [acc] holds its high bits. *)
Fixpoint utf8 (bs : list N) (need : nat) (acc : N) : str :=
  match bs with
  | [] => []
  | b :: bs' =>
      match need with
      | O =>
          if b <? 128 then b :: utf8 bs' 0 0
          else if b <? 224 then utf8 bs' 1 (b - 192)
          else if b <? 240 then utf8 bs' 2 (b - 224)
          else utf8 bs' 3 (b - 240)
      | S n =>
          let acc' := acc * 64 + (b - 128) in
          match n with
          | O => acc' :: utf8 bs' 0 0
          | S _ => utf8 bs' n acc'
          end
      end
  end.

(** The [str] written by a literal. *)
Definition py (s : string) : str :=
  utf8 (List.map (fun b => N_of_ascii (ascii_of_byte b)) (list_byte_of_string s)) 0 0.

(** The double quote, which a literal of this file cannot hold. *)
Definition dq : N := 34.
Definition lt_sign : N := 60.
Definition gt_sign : N := 62.
Definition newline : N := 10.
Definition colon : N := 58.

(** [s.startswith(p)]. *)
Fixpoint startswith (p s : str) : bool :=
  match p, s with
  | [], _ => true
  | _ :: _, [] => false
  | a :: p', b :: s' => (a =? b) && startswith p' s'
  end.

(** [needle in hay] on strings: some suffix of [hay] starts with [needle]. *)
Fixpoint contains (needle hay : str) : bool :=
  startswith needle hay ||
  match hay with
  | [] => false
  | _ :: hay' => contains needle hay'
  end.

(** [any(k in hay for k in keywords)], in the order of the list. *)
Definition contains_any (keywords : list str) (hay : str) : bool :=
  existsb (fun k => contains k hay) keywords.

(** [Py_UNICODE_ISSPACE]: the code points that [str.isspace], [str.strip]
    and the [\s] class of [re] (on [str] patterns) treat as white space. *)
Definition is_space (c : N) : bool :=
  ((9 <=? c) && (c <=? 13)) || ((28 <=? c) && (c <=? 32)) ||
  (c =? 133) || (c =? 160) || (c =? 5760) ||
  ((8192 <=? c) && (c <=? 8202)) || (c =? 8232) || (c =? 8233) ||
  (c =? 8239) || (c =? 8287) || (c =? 12288).

Fixpoint lstrip (s : str) : str :=
  match s with
  | [] => []
  | c :: s' => if is_space c then lstrip s' else s
  end.

Definition rstrip (s : str) : str := rev (lstrip (rev s)).

(** [s.strip()]. *)
Definition strip (s : str) : str := lstrip (rstrip s).

(** [s.rstrip(chars)] for a one-character [chars]. *)
Fixpoint lstrip_char (ch : N) (s : str) : str :=
  match s with
  | [] => []
  | c :: s' => if c =? ch then lstrip_char ch s' else s
  end.

Definition rstrip_char (ch : N) (s : str) : str := rev (lstrip_char ch (rev s)).

(** [str(n)] for an [int]. *)
Definition str_of_int (n : Z) : str :=
  py (NilZero.string_of_int (Z.to_int n)).

(** Python truthiness of an [Optional[str]]: [None] and the empty string
    are false. *)
Definition truthy (o : option str) : bool :=
  match o with
  | None => false
  | Some [] => false
  | Some (_ :: _) => true
  end.

End PyStr.
Export PyStr.

(** ** The fragment of [re] the client uses

    Every pattern of the module is a sequence of literals and of greedy
    repetitions of a character class, one of which is the capturing group.
    [search] scans start positions from the left and, at each of them,
    matches by backtracking, longest repetition first, as [re] does. *)

Module Re.

Inductive node : Type :=
| Lit (l : str)                       (* the characters of [l] *)
| Rep (cls : N -> bool) (min : nat)   (* [cls*] for 0 and [cls+] for 1 *)
| Cap (cls : N -> bool) (min : nat).  (* the same inside a group: [(cls+)] *)

Definition pattern := list node.

(** Length of the longest prefix of [s] whose characters are in [cls]. *)
Fixpoint span (cls : N -> bool) (s : str) : nat :=
  match s with
  | [] => O
  | c :: s' => if cls c then S (span cls s') else O
  end.

(** Try [f n], then [f (n-1)], ..., down to [f lo]: the backtracking order
    of a greedy repetition. *)
Fixpoint try_down {A} (lo n : nat) (f : nat -> option A) : option A :=
  if (n <? lo)%nat then None
  else
    match f n with
    | Some r => Some r
    | None =>
        match n with
        | O => None
        | S n' => try_down lo n' f
        end
    end.

(** Match [p] at the start of [s]; the result lists the captured groups. *)
Fixpoint match_here (p : pattern) (s : str) : option (list str) :=
  match p with
  | [] => Some []
  | Lit l :: p' =>
      if startswith l s then match_here p' (drop (length l) s) else None
  | Rep cls lo :: p' =>
      try_down lo (span cls s) (fun k => match_here p' (drop k s))
  | Cap cls lo :: p' =>
      try_down lo (span cls s)
        (fun k => cons (take k s) <$> match_here p' (drop k s))
  end.

(** [re.search]: the match at the leftmost position that has one. *)
Fixpoint search (p : pattern) (s : str) : option (list str) :=
  match match_here p s with
  | Some gs => Some gs
  | None =>
      match s with
      | [] => None
      | _ :: s' => search p s'
      end
  end.

(** [match.group(1)]. *)
Definition group1 (gs : list str) : str := List.hd [] gs.

Definition not_in (cs : list N) (c : N) : bool :=
  negb (existsb (N.eqb c) cs).

End Re.
Export Re.

(** ** The HTTP library, as the client sees it *)

Module Http.

(** ASCII lower-casing, as [requests]' case-insensitive header dictionary
    applies it to the (ASCII) header names used here. *)
Definition lower_char (c : N) : N :=
  if (65 <=? c) && (c <=? 90) then c + 32 else c.

Definition lower (s : str) : str := List.map lower_char s.

(** [CaseInsensitiveDict]: the lower-cased name maps to the name as last
    written and its value. *)
Abbreviation Headers := (gmap str (str * str)).

(** [headers.update(items)]. *)
Definition headers_update (items : list (str * str)) (h : Headers) : Headers :=
  foldl (fun acc kv => <[lower kv.1 := kv]> acc) h items.

Abbreviation CookieJar := (gmap str str).

Definition jar_update (items : list (str * str)) (j : CookieJar) : CookieJar :=
  foldl (fun acc kv => <[kv.1 := kv.2]> acc) j items.

Inductive Method : Type := GET | POST.

(** What one call of [Session.get] or [Session.post] sends. *)
Record Request : Type := mkRequest {
  method : Method;
  req_url : str;
  req_headers : Headers;
  req_cookies : CookieJar;
  req_data : list (str * str);
  allow_redirects : bool;
  req_timeout : Z
}.

(** The final response of a call, after redirects: status code, body
    text, final URL and the cookies the exchange set. *)
Record Response : Type := mkResponse {
  status_code : Z;
  text : str;
  url : str;
  set_cookies : list (str * str)
}.

(** A call either raises a [requests.RequestException], of which the
    client keeps [str(e)], or returns a response. *)
Inductive Outcome : Type :=
| Raises (e : str)
| Returns (r : Response).

Record Session : Type := mkSession {
  headers : Headers;
  cookies : CookieJar
}.

(** [Response.raise_for_status] raises [HTTPError] for the client-error
    and server-error codes, 400 to 599, and for no other. *)
Definition raise_for_status (r : Response) : bool :=
  ((400 <=? status_code r) && (status_code r <? 600))%Z.

End Http.
Export Http.

(** ** The client *)

Module Serv00.

Inductive AccountStatus : Type :=
| ACTIVE | BANNED | LOGIN_FAILED | NETWORK_ERROR | UNKNOWN.

#[global] Instance AccountStatus_eq_dec : EqDecision AccountStatus.
Proof. solve_decision. Defined.

Record LoginResult : Type := mkLoginResult {
  status : AccountStatus;
  message : str;
  result_panel_url : str;
  username : str;
  details : option str
}.

Record Serv00Client : Type := mkClient {
  panel_url : str;
  timeout : Z;
  session : Session
}.

(** [CSRF_PATTERN]: the literal name=QcsrfmiddlewaretokenQ (Q standing for
    the double quote), white space [\s+], the literal value=Q, the group
    [([^Q]+)] and a closing Q. *)
Definition CSRF_PATTERN : pattern :=
  [ Lit (py "name=" ++ [dq] ++ py "csrfmiddlewaretoken" ++ [dq]);
    Rep is_space 1;
    Lit (py "value=" ++ [dq]);
    Cap (not_in [dq]) 1;
    Lit [dq] ].

Definition BANNED_KEYWORDS : list str :=
  [py "Konto zablokowane"; py "Account blocked"; py "blocked"].
Definition SUCCESS_KEYWORDS : list str :=
  [py "Strona główna"; py "Zalogowany jako"; py "Dashboard"].
Definition LOGIN_PAGE_KEYWORDS : list str :=
  [py "Zaloguj się"; py "Login"; py "Sign in"].

(** The class [[:\s]]. *)
Definition colon_or_space (c : N) : bool := (c =? colon) || is_space c.

(** The pattern [Konto zablokowane[:\s]*([^<\n]+)]. *)
Definition BAN_REASON_PATTERN : pattern :=
  [ Lit (py "Konto zablokowane");
    Rep colon_or_space 0;
    Cap (not_in [lt_sign; newline]) 1 ].

(** The pattern [Konto ważne do[:\s]*([^<\n]+)]. *)
Definition VALIDITY_PATTERN : pattern :=
  [ Lit (py "Konto ważne do");
    Rep colon_or_space 0;
    Cap (not_in [lt_sign; newline]) 1 ].

(** The pattern of [_extract_error_message], with Q for the double quote:
    class=Q, [[^Q]*], alert, [[^Q]*], Q, [[^>]*], >, and the group
    [([^<]+)]. *)
Definition ERROR_MESSAGE_PATTERN : pattern :=
  [ Lit (py "class=" ++ [dq]);
    Rep (not_in [dq]) 0;
    Lit (py "alert");
    Rep (not_in [dq]) 0;
    Lit [dq];
    Rep (not_in [gt_sign]) 0;
    Lit [gt_sign];
    Cap (not_in [lt_sign]) 1 ].

(** The headers [__init__] sets on its session. *)
Definition INIT_USER_AGENT : str :=
  py "Mozilla/5.0 (Windows NT 10.0; Win64; x64) AppleWebKit/537.36 (KHTML, like Gecko) Chrome/120.0.0.0 Safari/537.36".

Definition INIT_HEADERS : list (str * str) :=
  [ (py "User-Agent", INIT_USER_AGENT);
    (py "Accept", py "text/html,application/xhtml+xml,application/xml;q=0.9,image/webp,*/*;q=0.8");
    (py "Accept-Language", py "en-US,en;q=0.5");
    (py "Accept-Encoding", py "gzip, deflate, br");
    (py "Connection", py "keep-alive") ].

(** The header [login] sets on the session it builds before a retry. *)
Definition RETRY_USER_AGENT : str :=
  py "Mozilla/5.0 (Windows NT 10.0; Win64; x64) AppleWebKit/537.36".

Definition RETRY_HEADERS : list (str * str) :=
  [ (py "User-Agent", RETRY_USER_AGENT) ].

Definition slash : N := 47.

(** [_extract_ban_reason]. *)
Definition DEFAULT_BAN_REASON : str := py "TOS 违规".

Definition _extract_ban_reason (content : str) : option str :=
  match search BAN_REASON_PATTERN content with
  | Some m => Some (strip (group1 m))
  | None => Some DEFAULT_BAN_REASON
  end.

(** [_extract_account_validity]. *)
Definition VALIDITY_LABEL : str := py "有效期至: ".

Definition _extract_account_validity (content : str) : option str :=
  match search VALIDITY_PATTERN content with
  | Some m => Some (VALIDITY_LABEL ++ strip (group1 m))
  | None => None
  end.

(** [_extract_error_message]. *)
Definition _extract_error_message (content : str) : option str :=
  match search ERROR_MESSAGE_PATTERN content with
  | Some m => Some (strip (group1 m))
  | None => None
  end.

Definition DEFAULT_LOGIN_ERROR : str := py "用户名或密码错误".
Definition UNKNOWN_DETAIL_PREFIX : str := py "响应 URL: ".

(** [_parse_login_result]: the three keyword loops, in order, then the
    fall-through. *)
Definition _parse_login_result (self : Serv00Client) (response : Response)
    (username : str) : LoginResult :=
  let content := text response in
  if contains_any BANNED_KEYWORDS content then
    mkLoginResult BANNED (py "账号已被封禁") (panel_url self) username
      (_extract_ban_reason content)
  else if contains_any SUCCESS_KEYWORDS content then
    mkLoginResult ACTIVE (py "账号正常") (panel_url self) username
      (_extract_account_validity content)
  else if contains_any LOGIN_PAGE_KEYWORDS content then
    let error_msg := _extract_error_message content in
    mkLoginResult LOGIN_FAILED (py "登录失败") (panel_url self) username
      (if truthy error_msg then error_msg else Some DEFAULT_LOGIN_ERROR)
  else
    mkLoginResult UNKNOWN (py "无法判断账号状态") (panel_url self) username
      (Some (UNKNOWN_DETAIL_PREFIX ++ url response)).

(** The client object and the requests sent so far. *)
Record World : Type := mkWorld {
  self : Serv00Client;
  sent : list Request
}.

Definition set_session (s : Session) (c : Serv00Client) : Serv00Client :=
  mkClient (panel_url c) (timeout c) s.

Section Client.

(** [requests.utils.default_headers()], the headers of a new session. *)
Variable default_headers : Headers.

(** The network: the outcome of a request, given those sent before it. *)
Variable transport : list Request -> Request -> Outcome.

(** [requests.Session()]. *)
Definition new_session : Session := mkSession default_headers ∅.

(** [Serv00Client(panel_url, timeout)]. *)
Definition __init__ (panel_url : str) (timeout : Z) : Serv00Client :=
  mkClient (rstrip_char slash panel_url) timeout
    (mkSession (headers_update INIT_HEADERS (headers new_session))
       (cookies new_session)).

(** One call through the session: the request is logged, the transport
    decides, and a response's cookies go to the session's jar. *)
Definition send (req : Request) (w : World) : Outcome * World :=
  let o := transport (sent w) req in
  let c := self w in
  let c' :=
    match o with
    | Raises _ => c
    | Returns r =>
        set_session
          (mkSession (headers (session c))
             (jar_update (set_cookies r) (cookies (session c)))) c
    end in
  (o, mkWorld c' (sent w ++ [req])).

(** [self.session.get(url, timeout=...)]. *)
Definition session_get (url : str) (tmo : Z) (w : World) : Outcome * World :=
  let s := session (self w) in
  send (mkRequest GET url (headers s) (cookies s) [] true tmo) w.

(** [self.session.post(url, data=..., headers=..., allow_redirects=...,
    timeout=...)]. *)
Definition session_post (url : str) (data hdrs : list (str * str))
    (redirects : bool) (tmo : Z) (w : World) : Outcome * World :=
  let s := session (self w) in
  send (mkRequest POST url (headers_update hdrs (headers s)) (cookies s)
          data redirects tmo) w.

Definition login_url (c : Serv00Client) : str := panel_url c ++ py "/login/".

(** [get_csrf_token]. *)
Definition get_csrf_token (w : World) : option str * World :=
  let '(o, w') := session_get (login_url (self w)) (timeout (self w)) w in
  match o with
  | Raises _ => (None, w')
  | Returns response =>
      if raise_for_status response then (None, w')
      else
        match search CSRF_PATTERN (text response) with
        | Some m => (Some (group1 m), w')
        | None => (None, w')
        end
  end.

Definition TOKEN_ERROR_MESSAGE : str := py "无法获取 CSRF token".

(** [_do_login]: [inl e] when the POST raises a [RequestException] with
    text [e], [inr result] when the method returns. *)
Definition _do_login (username password : str) (w : World)
    : (str + LoginResult) * World :=
  let '(csrf_token, w1) := get_csrf_token w in
  if negb (truthy csrf_token) then
    (inr (mkLoginResult NETWORK_ERROR TOKEN_ERROR_MESSAGE
            (panel_url (self w1)) username None), w1)
  else
    let token := default [] csrf_token in
    let c := self w1 in
    let data :=
      [ (py "csrfmiddlewaretoken", token);
        (py "username", username);
        (py "password", password);
        (py "next", py "/") ] in
    let hdrs :=
      [ (py "Referer", login_url c);
        (py "Origin", panel_url c);
        (py "Content-Type", py "application/x-www-form-urlencoded") ] in
    let '(o, w2) := session_post (login_url c) data hdrs true (timeout c) w1 in
    match o with
    | Raises e => (inl e, w2)
    | Returns response =>
        (inr (_parse_login_result (self w2) response username), w2)
    end.

(** The [except] branch of [login]: a new session with one header set. *)
Definition reset_session (w : World) : World :=
  mkWorld
    (set_session
       (mkSession (headers_update RETRY_HEADERS (headers new_session))
          (cookies new_session)) (self w))
    (sent w).

(** The message of the result [login] returns after its loop. *)
Definition retries_message (retry_count : Z) : str :=
  py "网络错误 (重试 " ++ str_of_int retry_count ++ py " 次后失败)".

(** The [for attempt in range(retry_count)] loop of [login], with [n]
    iterations left, and the [return] that follows it. *)
Fixpoint login_loop (retry_count : Z) (n : nat) (username password : str)
    (last_error : option str) (w : World) : LoginResult * World :=
  match n with
  | O =>
      (mkLoginResult NETWORK_ERROR (retries_message retry_count)
         (panel_url (self w)) username last_error, w)
  | S n' =>
      match _do_login username password w with
      | (inr result, w') => (result, w')
      | (inl e, w') =>
          login_loop retry_count n' username password (Some e)
            (reset_session w')
      end
  end.

(** [login]. *)
Definition login (username password : str) (retry_count : Z) (w : World)
    : LoginResult * World :=
  login_loop retry_count (Z.to_nat retry_count) username password None w.

End Client.

End Serv00.
Export Serv00.

(** ** [logger.py] *)

Module Logger.

(** The levels of [logging] that the program uses. *)
Inductive Level : Type := DEBUG | INFO | WARNING | ERROR.

#[global] Instance Level_eq_dec : EqDecision Level.
Proof. solve_decision. Defined.

(** [logging]'s numeric value of a level. *)
Definition levelno (l : Level) : Z :=
  match l with
  | DEBUG => 10
  | INFO => 20
  | WARNING => 30
  | ERROR => 40
  end.

(** Where a handler writes: [sys.stdout] or the file of a [FileHandler]. *)
Inductive Target : Type :=
| Stdout
| File (path : str).

Record Handler : Type := mkHandler {
  target : Target;
  handler_level : Level;
  fmt : str;
  datefmt : str
}.

(** A [logging.Logger]: its level ([None] for [NOTSET]) and handlers. *)
Record PyLogger : Type := mkLogger {
  logger_level : option Level;
  handlers : list Handler
}.

(** The loggers [logging.getLogger] has handed out, by name. *)
Abbreviation Registry := (gmap str PyLogger).

(** [logging.getLogger(name)]: the logger of that name, made on first use. *)
Definition getLogger (name : str) (reg : Registry) : PyLogger :=
  default (mkLogger None []) (reg !! name).

Definition LOG_FORMAT : str := py "[%(asctime)s] [%(levelname)s] %(message)s".
Definition LOG_DATEFMT : str := py "%Y-%m-%d %H:%M:%S".

(** [setup_logger(name, log_file)]: the logger returned and the registry
    afterwards. *)
Definition setup_logger (name : str) (log_file : option str) (reg : Registry)
    : PyLogger * Registry :=
  let logger := mkLogger (Some DEBUG) (handlers (getLogger name reg)) in
  match handlers logger with
  | _ :: _ => (logger, <[name := logger]> reg)
  | [] =>
      let console_handler := mkHandler Stdout INFO LOG_FORMAT LOG_DATEFMT in
      let logger := mkLogger (Some DEBUG) (handlers logger ++ [console_handler]) in
      let logger :=
        if truthy log_file then
          let file_handler :=
            mkHandler (File (default [] log_file)) DEBUG LOG_FORMAT LOG_DATEFMT in
          mkLogger (Some DEBUG) (handlers logger ++ [file_handler])
        else logger in
      (logger, <[name := logger]> reg)
  end.

(** The handlers of [logger] that emit a record of level [l] logged on it:
    the logger lets the record through when its own level allows, then
    each handler applies its level.  The answer is [None] for a logger
    without a level of its own, which takes it from its parents. *)
Definition receivers (logger : PyLogger) (l : Level) : option (list Handler) :=
  match logger_level logger with
  | None => None
  | Some lv =>
      Some (if (levelno l <? levelno lv)%Z then []
            else List.filter
                   (fun h => (levelno (handler_level h) <=? levelno l)%Z)
                   (handlers logger))
  end.

(** [StatusPrinter.COLORS], entry by entry; 27 is the escape character. *)
Definition esc : N := 27.
Definition COLOR_green : str := esc :: py "[92m".
Definition COLOR_yellow : str := esc :: py "[93m".
Definition COLOR_red : str := esc :: py "[91m".
Definition COLOR_blue : str := esc :: py "[94m".
Definition COLOR_reset : str := esc :: py "[0m".

(** [StatusPrinter.success], [warning], [error] and [info]. *)
Definition success (message : str) : str :=
  COLOR_green ++ py "✓" ++ COLOR_reset ++ py " " ++ message.
Definition warning (message : str) : str :=
  COLOR_yellow ++ py "⚠" ++ COLOR_reset ++ py " " ++ message.
Definition error (message : str) : str :=
  COLOR_red ++ py "✗" ++ COLOR_reset ++ py " " ++ message.
Definition info (message : str) : str :=
  COLOR_blue ++ py "ℹ" ++ COLOR_reset ++ py " " ++ message.

End Logger.
Export Logger.

(** ** [main.py] *)

Module Main.

(** [str.split(sep)] for a non-empty [sep]: [cur] holds, reversed, the
    piece being read, and [skip] characters of a separator just found are
    still to be passed over. *)
Fixpoint split_go (sep s cur : str) (skip : nat) : list str :=
  match s with
  | [] => [rev cur]
  | c :: s' =>
      match skip with
      | S k => split_go sep s' cur k
      | O =>
          if startswith sep s
          then rev cur :: split_go sep s' [] (length sep - 1)
          else split_go sep s' (c :: cur) 0
      end
  end.

Definition split (sep s : str) : list str := split_go sep s [] 0.

(** The exceptions that [check_account] can raise by itself. *)
Inductive Exn : Type :=
| KeyError (key : str)
| IndexError.

(** [str(e)]: a [KeyError] prints the [repr] of its key (here a plain
    ASCII name, so the name between single quotes). *)
Definition str_of_exn (e : Exn) : str :=
  match e with
  | KeyError key => py "'" ++ key ++ py "'"
  | IndexError => py "list index out of range"
  end.

(** The panel name shown in the log lines:
    [panel_url.split('//')[1].split('.')[0] if '//' in panel_url else panel_url]. *)
Definition panel_id (panel_url : str) : Exn + str :=
  if contains (py "//") panel_url then
    match split (py "//") panel_url !! 1%nat with
    | None => inl IndexError
    | Some rest =>
        match split (py ".") rest !! 0%nat with
        | None => inl IndexError
        | Some name => inr name
        end
    end
  else inr panel_url.

(** What [subprocess.run(command, shell=True, capture_output=True,
    text=True, timeout=60)] does: the command completes, the timeout
    expires, or another exception of text [e] is raised. *)
Inductive ShellOutcome : Type :=
| Completed (returncode : Z) (stdout stderr : str)
| TimeoutExpired
| Failed (e : str).

(** What the program has done so far: the requests sent, the records
    logged and the shell commands run. *)
Record Effects : Type := mkEffects {
  net : list Request;
  logged : list (Level * str);
  ran : list str
}.

Definition log_record (l : Level) (msg : str) (fx : Effects) : Effects :=
  mkEffects (net fx) (logged fx ++ [(l, msg)]) (ran fx).

(** [msg += f" ({result.details})"] under [if result.details]. *)
Definition with_details (msg : str) (details : option str) : str :=
  if truthy details then msg ++ py " (" ++ default [] details ++ py ")"
  else msg.

(** An account of the configuration, with its string-valued entries, and
    the integer-valued entries of the settings. *)
Abbreviation Account := (gmap str str).
Abbreviation Settings := (gmap str Z).

Section Program.

Variable default_headers : Headers.
Variable transport : list Request → Request → Outcome.

(** The shell: the outcome of a command, given those run before it. *)
Variable shell : list str → str → ShellOutcome.

(** [execute_shell_command]. *)
Definition execute_shell_command (command : str) (fx : Effects)
    : bool * Effects :=
  let fx := log_record INFO (py "执行自定义命令: " ++ command) fx in
  let outcome := shell (ran fx) command in
  let fx := mkEffects (net fx) (logged fx) (ran fx ++ [command]) in
  match outcome with
  | Completed returncode stdout stderr =>
      if (returncode =? 0)%Z then
        let fx :=
          if truthy (Some (strip stdout))
          then log_record DEBUG (py "命令输出: " ++ strip stdout) fx
          else fx in
        (true, fx)
      else
        let fx :=
          log_record WARNING (py "命令返回非零状态: " ++ str_of_int returncode) fx in
        let fx :=
          if truthy (Some (strip stderr))
          then log_record WARNING (py "错误输出: " ++ strip stderr) fx
          else fx in
        (false, fx)
  | TimeoutExpired => (false, log_record ERROR (py "命令执行超时") fx)
  | Failed e => (false, log_record ERROR (py "命令执行失败: " ++ e) fx)
  end.

(** The status line of [check_account] and the level it is logged at. *)
Definition status_line (pid username : str) (result : LoginResult)
    : Level * str :=
  let head := py "[" ++ pid ++ py "] " ++ username ++ py ": " in
  match status result with
  | ACTIVE =>
      (INFO, with_details (success (head ++ py "账号正常")) (details result))
  | BANNED =>
      (WARNING, with_details (error (head ++ py "账号已被封禁")) (details result))
  | LOGIN_FAILED =>
      (WARNING, with_details (warning (head ++ py "登录失败")) (details result))
  | NETWORK_ERROR =>
      (ERROR, with_details (error (head ++ py "网络错误")) (details result))
  | UNKNOWN =>
      (WARNING, with_details (warning (head ++ py "未知状态")) (details result))
  end.

(** [check_account]: [inl e] when it raises [e]. *)
Definition check_account (account : Account) (settings : Settings)
    (fx : Effects) : (Exn + LoginResult) * Effects :=
  match account !! py "panel_url" with
  | None => (inl (KeyError (py "panel_url")), fx)
  | Some panel_url =>
  match account !! py "username" with
  | None => (inl (KeyError (py "username")), fx)
  | Some username =>
  match account !! py "password" with
  | None => (inl (KeyError (py "password")), fx)
  | Some password =>
      let timeout := default 30%Z (settings !! py "timeout") in
      let retry_count := default 3%Z (settings !! py "retry_count") in
      match panel_id panel_url with
      | inl e => (inl e, fx)
      | inr pid =>
          let fx :=
            log_record INFO
              (py "[" ++ pid ++ py "] 正在检查账号 " ++ username ++ py "...") fx in
          let client := __init__ default_headers panel_url timeout in
          let '(result, w) :=
            login default_headers transport username password retry_count
              (mkWorld client (net fx)) in
          let fx := mkEffects (sent w) (logged fx) (ran fx) in
          let '(level, msg) := status_line pid username result in
          let fx := log_record level msg fx in
          let fx :=
            match status result with
            | BANNED =>
                let on_banned := account !! py "on_banned" in
                if truthy on_banned
                then (execute_shell_command (default [] on_banned) fx).2
                else fx
            | _ => fx
            end in
          (inr result, fx)
      end
  end end end.

(** The [for account in accounts] loop of [main]. *)
Fixpoint check_accounts (accounts : list Account) (settings : Settings)
    (fx : Effects) : list LoginResult * Effects :=
  match accounts with
  | [] => ([], fx)
  | account :: accounts' =>
      let '(result, fx) :=
        match check_account account settings fx with
        | (inr result, fx) => (result, fx)
        | (inl e, fx) =>
            (mkLoginResult UNKNOWN (str_of_exn e)
               (default (py "unknown") (account !! py "panel_url"))
               (default (py "unknown") (account !! py "username")) None,
             log_record ERROR (py "检查账号时发生错误: " ++ str_of_exn e) fx)
        end in
      let '(results, fx) := check_accounts accounts' settings fx in
      (result :: results, fx)
  end.

(** [sum(1 for r in results if r.status == st)]. *)
Definition count_status (sts : list AccountStatus) (results : list LoginResult)
    : Z :=
  Z.of_nat (length (List.filter (fun r => bool_decide (status r ∈ sts)) results)).

Definition RULE : str := concat (replicate 50 (py "=")).

(** [main], from the first log lines on, for the accounts and settings of
    a loaded configuration: the exit status and the effects. *)
Definition main_checks (accounts : list Account) (settings : Settings)
    (fx : Effects) : Z * Effects :=
  let fx := log_record INFO RULE fx in
  let fx := log_record INFO (py "开始检查 serv00 账号状态...") fx in
  let fx := log_record INFO RULE fx in
  let '(results, fx) := check_accounts accounts settings fx in
  let active_count := count_status [ACTIVE] results in
  let banned_count := count_status [BANNED] results in
  let failed_count :=
    count_status [LOGIN_FAILED; NETWORK_ERROR; UNKNOWN] results in
  let fx := log_record INFO RULE fx in
  let fx :=
    log_record INFO
      (py "检查完成: " ++ str_of_int active_count ++ py " 正常, " ++
       str_of_int banned_count ++ py " 封禁, " ++
       str_of_int failed_count ++ py " 失败") fx in
  let fx := log_record INFO RULE fx in
  if ((0 <? banned_count) || (0 <? failed_count))%Z then (1%Z, fx)
  else (0%Z, fx).

End Program.

End Main.
Export Main.

(** ** Declarative readings used by the statements *)

Module Reading.

(** [needle] occurs in [hay] as a substring. *)
Definition occurs (needle hay : str) : Prop :=
  ∃ pre post, hay = pre ++ needle ++ post.

(** All characters of [run] are in the class [cls]. *)
Definition all_in (cls : N → bool) (run : str) : Prop :=
  Forall (λ c, cls c = true) run.

(** A prefix of [s] matches [p] with captured groups [gs], whatever the
    order in which a matcher explores the alternatives. *)
Fixpoint Matches (p : pattern) (s : str) (gs : list str) : Prop :=
  match p with
  | [] => gs = []
  | Lit l :: p' => ∃ s', s = l ++ s' ∧ Matches p' s' gs
  | Rep cls lo :: p' =>
      ∃ run s', s = run ++ s' ∧ all_in cls run ∧ (lo ≤ length run)%nat ∧
                Matches p' s' gs
  | Cap cls lo :: p' =>
      ∃ run s' gs', s = run ++ s' ∧ all_in cls run ∧ (lo ≤ length run)%nat ∧
                    gs = run :: gs' ∧ Matches p' s' gs'
  end.

(** [p] matches somewhere in [s]. *)
Definition matches_somewhere (p : pattern) (s : str) : Prop :=
  ∃ pre suf gs, s = pre ++ suf ∧ Matches p suf gs.

(** No occurrence of [needle] in [hay] starts before position [n]. *)
Definition none_before (needle hay : str) (n : nat) : Prop :=
  ∀ pre post, hay = pre ++ needle ++ post → (n ≤ length pre)%nat.

(** The request [get_csrf_token] sends for the client [c]. *)
Definition token_request (c : Serv00Client) : Request :=
  mkRequest GET (login_url c) (headers (session c)) (cookies (session c))
    [] true (timeout c).

(** The hidden form field that carries the token [tok], with the white
    space [ws] between its two attributes. *)
Definition token_field (ws tok : str) : str :=
  py "name=" ++ [dq] ++ py "csrfmiddlewaretoken" ++ [dq] ++ ws ++
  py "value=" ++ [dq] ++ tok ++ [dq].

(** [body] holds a token field right after [pre]. *)
Definition token_field_at (body pre ws tok : str) : Prop :=
  (∃ post, body = pre ++ token_field ws tok ++ post) ∧
  ws ≠ [] ∧ all_in is_space ws ∧ tok ≠ [] ∧ all_in (not_in [dq]) tok.

(** [body] holds [label], then separators (colons and white space), then
    a non-empty text free of [<] and of newlines: what the patterns of
    [_extract_ban_reason] and [_extract_account_validity] look for. *)
Definition has_labelled_text (label body : str) : Prop :=
  ∃ pre sep txt post,
    body = pre ++ label ++ sep ++ txt ++ post ∧
    all_in colon_or_space sep ∧ txt ≠ [] ∧
    all_in (not_in [lt_sign; newline]) txt.

Section Attempts.

Variable default_headers : Headers.
Variable transport : list Request → Request → Outcome.
Variables username password : str.

(** The world in which attempt number [k] (from 0) of [login] starts when
    all the attempts before it raised: each of those is followed by the
    session reset of the [except] branch. *)
Fixpoint world_before (k : nat) (w : World) : World :=
  match k with
  | O => w
  | S k' =>
      reset_session default_headers
        (_do_login transport username password (world_before k' w)).2
  end.

(** Attempt number [k] raises the transport exception of text [e]. *)
Definition attempt_raises (k : nat) (w : World) (e : str) : Prop :=
  (_do_login transport username password (world_before k w)).1 = inl e.

End Attempts.

End Reading.
Export Reading.

(** ** Further readings, for the properties beyond the listed claims *)

Module Reading2.

(** Some keyword of [keywords] occurs in [body]. *)
Definition has_keyword (keywords : list str) (body : str) : Prop :=
  ∃ kw, kw ∈ keywords ∧ occurs kw body.

(** A text as the extractors leave it: free of [<] and of newlines, and
    with no white space at either end (the empty text included). *)
Definition clean_text (d : str) : Prop :=
  all_in (not_in [lt_sign; newline]) d ∧
  (∀ c t, d = c :: t → is_space c = false) ∧
  (∀ t c, d = t ++ [c] → is_space c = false).

(** A request as [login] sends them for the client [c]: to the login URL,
    with the client's timeout, following redirects. *)
Definition to_login_page (c : Serv00Client) (req : Request) : Prop :=
  req_url req = login_url c ∧ req_timeout req = timeout c ∧
  allow_redirects req = true.

(** Requests come in the order GET, POST, GET, POST, ..., and only the
    POSTs carry form data. *)
Definition alternates (reqs : list Request) : Prop :=
  ∀ i req, reqs !! i = Some req →
    if Nat.even i then method req = GET ∧ req_data req = []
    else method req = POST.

(** The form [_do_login] posts. *)
Definition login_form (token username password : str) : list (str * str) :=
  [ (py "csrfmiddlewaretoken", token);
    (py "username", username);
    (py "password", password);
    (py "next", py "/") ].

(** The entries an account must have. *)
Definition REQUIRED_KEYS : list str :=
  [py "panel_url"; py "username"; py "password"].

(** How [main] reports an account: under the account's user name; as
    [UNKNOWN], without details and under the URL as configured, when a
    required entry is missing; as the result of a [login] otherwise. *)
Definition reported (default_headers : Headers)
    (transport : list Request → Request → Outcome) (settings : Settings)
    (account : Account) (result : LoginResult) : Prop :=
  username result = default (py "unknown") (account !! py "username") ∧
  ((∃ key, key ∈ REQUIRED_KEYS ∧ account !! key = None) →
   status result = UNKNOWN ∧ details result = None ∧
   result_panel_url result = default (py "unknown") (account !! py "panel_url")) ∧
  (∀ url u p,
     account !! py "panel_url" = Some url →
     account !! py "username" = Some u →
     account !! py "password" = Some p →
     ∃ sent_before,
       result =
         (login default_headers transport u p
            (default 3%Z (settings !! py "retry_count"))
            (mkWorld
               (__init__ default_headers url
                  (default 30%Z (settings !! py "timeout")))
               sent_before)).1).

(** The three records [main] logs before it checks the accounts. *)
Definition announced (fx : Effects) : Effects :=
  log_record INFO RULE
    (log_record INFO (py "开始检查 serv00 账号状态...")
       (log_record INFO RULE fx)).

End Reading2.
Export Reading2.

(** ** Concrete clients, responses and transports used by the examples *)

Module Examples.

(** A client built outside [__init__], with an empty session. *)
Definition example_client : Serv00Client :=
  mkClient (py "https://panel12.serv00.com") 30 (mkSession ∅ ∅).

(** The client [Serv00Client(url, 30)], before any request. *)
Definition example_world : World :=
  mkWorld (__init__ ∅ (py "https://panel12.serv00.com/") 30) [].

Definition alice : str := py "alice".
Definition secret : str := py "s3cret".

(** A login page with the hidden token field. *)
Definition token_page : str :=
  py "<input type=" ++ [dq] ++ py "hidden" ++ [dq] ++ py " name=" ++ [dq] ++
  py "csrfmiddlewaretoken" ++ [dq] ++ py " value=" ++ [dq] ++ py "abc123XYZ" ++
  [dq] ++ py ">".

Definition page (code : Z) (body : str) : Outcome :=
  Returns (mkResponse code body (py "https://panel12.serv00.com/login/") []).

(** The login page has no token field. *)
Definition transport_no_token (hist : list Request) (req : Request) : Outcome :=
  page 200 (py "<html>maintenance</html>").

(** The token is served, every POST times out. *)
Definition transport_post_fails (hist : list Request) (req : Request) : Outcome :=
  match method req with
  | GET => page 200 token_page
  | POST => Raises (py "Read timed out.")
  end.

(** The token is served, the POST is answered with [body]. *)
Definition transport_answers (body : str) (hist : list Request) (req : Request)
    : Outcome :=
  match method req with
  | GET => page 200 token_page
  | POST => page 200 body
  end.

(** The first two POSTs time out, the third is answered with [body]
    (requests 2 and 4 of the log are those two POSTs). *)
Definition transport_flaky (body : str) (hist : list Request) (req : Request)
    : Outcome :=
  match method req with
  | GET => page 200 token_page
  | POST => if (length hist <? 5)%nat then Raises (py "Read timed out.")
            else page 200 body
  end.

(** The login page comes with a status that is neither 2xx nor an error. *)
Definition transport_status (code : Z) (hist : list Request) (req : Request)
    : Outcome :=
  page code token_page.

End Examples.
Export Examples.

Module Examples2.

Definition account_of (entries : list (str * str)) : Account :=
  list_to_map entries.

(** A complete account with a command to run when it is banned. *)
Definition account_full : Account :=
  account_of
    [ (py "panel_url", py "https://panel12.serv00.com");
      (py "username", alice);
      (py "password", secret);
      (py "on_banned", py "echo banned") ].

(** An account without password. *)
Definition account_no_password : Account :=
  account_of
    [ (py "panel_url", py "https://panel7.serv00.com");
      (py "username", py "bob") ].

(** An account with its URL and password, without user name. *)
Definition account_no_username : Account :=
  account_of
    [ (py "panel_url", py "https://panel3.serv00.com");
      (py "password", secret) ].

(** An account with a URL only. *)
Definition account_only_url : Account :=
  account_of [ (py "panel_url", py "https://panel9.serv00.com") ].

Definition no_settings : Settings := ∅.

Definition no_effects : Effects := mkEffects [] [] [].

(** Every command succeeds and prints a line. *)
Definition shell_ok (before : list str) (command : str) : ShellOutcome :=
  Completed 0 (py "done" ++ [newline]) [].

(** The panel answers every login with a page that says the account is
    blocked. *)
Definition transport_banned : list Request → Request → Outcome :=
  transport_answers (py "<p>Account blocked</p>").

End Examples2.
Export Examples2.
(** ** Strings: substring tests *)

Section StringFacts.

Lemma startswith_app (p t : str) : startswith p (p ++ t) = true.
Proof.
  induction p as [|a p IH]; simpl; [done|].
  by rewrite N.eqb_refl, IH.
Qed.

Lemma startswith_inv (p s : str) :
  startswith p s = true → s = p ++ drop (length p) s.
Proof.
  revert s. induction p as [|a p IH]; intros [|b s]; simpl; try done.
  intros [Hab Hp]%andb_prop. apply N.eqb_eq in Hab as ->.
  f_equal. by apply IH.
Qed.

Lemma startswith_spec (p s : str) :
  startswith p s = true ↔ ∃ t, s = p ++ t.
Proof.
  split.
  - intros H. eexists. by apply startswith_inv.
  - intros [t ->]. apply startswith_app.
Qed.

Lemma contains_spec (needle hay : str) :
  contains needle hay = true ↔ occurs needle hay.
Proof.
  unfold occurs. induction hay as [|c hay IH]; simpl.
  - rewrite orb_false_r, startswith_spec. split.
    + intros [t Ht]. by exists [], t.
    + intros ([|] & post & H); simpl in H; [by exists post|done].
  - rewrite orb_true_iff, startswith_spec, IH. split.
    + intros [[t Ht]|(pre & post & Ht)].
      * by exists [], t.
      * exists (c :: pre), post. by rewrite Ht.
    + intros ([|c' pre] & post & H); simpl in H.
      * left. by exists post.
      * right. exists pre, post. congruence.
Qed.

Lemma contains_false (needle hay : str) :
  contains needle hay = false ↔ ¬ occurs needle hay.
Proof.
  rewrite <- contains_spec. destruct (contains needle hay); naive_solver.
Qed.

Lemma contains_any_spec (keywords : list str) (hay : str) :
  contains_any keywords hay = true ↔ ∃ k, k ∈ keywords ∧ occurs k hay.
Proof.
  unfold contains_any. rewrite existsb_exists.
  split; intros (k & Hk & H); exists k.
  - by rewrite list_elem_of_In, <- contains_spec.
  - by rewrite <- list_elem_of_In, contains_spec.
Qed.

Lemma contains_any_false (keywords : list str) (hay : str) :
  contains_any keywords hay = false ↔ ∀ k, k ∈ keywords → ¬ occurs k hay.
Proof.
  split.
  - intros H k Hk Ho.
    assert (contains_any keywords hay = true) by (apply contains_any_spec; eauto).
    congruence.
  - intros H. destruct (contains_any keywords hay) eqn:E; [|done].
    apply contains_any_spec in E as (k & Hk & Ho). by destruct (H k Hk).
Qed.

(** A check by evaluation that [needle] does not start before position [k]. *)
Lemma no_earlier_by_check (needle hay : str) (k : nat) :
  forallb (λ i, negb (startswith needle (drop i hay))) (seq 0 k) = true →
  none_before needle hay k.
Proof.
  intros Hall pre' post' ->.
  destruct (decide (k ≤ length pre')%nat) as [|Hlt]; [done|exfalso].
  rewrite forallb_forall in Hall.
  specialize (Hall (length pre')).
  rewrite drop_app_length, startswith_app in Hall.
  assert (false = true); [|done].
  apply Hall, in_seq. lia.
Qed.

End StringFacts.

(** ** The matcher against the declarative reading *)

Section MatcherFacts.

Lemma span_le (cls : N → bool) (s : str) : (span cls s ≤ length s)%nat.
Proof. induction s as [|c s IH]; simpl; [lia|]. destruct (cls c); simpl; lia. Qed.

Lemma all_in_take_span (cls : N → bool) (s : str) (k : nat) :
  (k ≤ span cls s)%nat → all_in cls (take k s).
Proof.
  unfold all_in. revert k. induction s as [|c s IH]; intros k Hk; simpl in *.
  - by rewrite take_nil.
  - destruct k as [|k]; [by constructor|]. simpl.
    destruct (cls c) eqn:E; [|lia]. constructor; [done|]. apply IH. lia.
Qed.

Lemma all_in_span (cls : N → bool) (run s' : str) :
  all_in cls run → (length run ≤ span cls (run ++ s'))%nat.
Proof.
  unfold all_in. induction 1 as [|c run Hc _ IH]; simpl; [lia|].
  rewrite Hc. lia.
Qed.

Lemma try_down_None {A} (lo n : nat) (f : nat → option A) :
  try_down lo n f = None ↔ ∀ k, (lo ≤ k ≤ n)%nat → f k = None.
Proof.
  induction n as [|n IH]; simpl.
  - destruct (Nat.ltb_spec 0 lo).
    + split; [intros _ k ?; lia|done].
    + destruct (f 0%nat) eqn:E.
      * split; [done|]. intros H'. rewrite <- E. apply H'. lia.
      * split; [|done]. intros _ k Hk. by replace k with 0%nat by lia.
  - destruct (Nat.ltb_spec (S n) lo).
    + split; [intros _ k ?; lia|done].
    + destruct (f (S n)) eqn:E.
      * split; [done|]. intros H'. rewrite <- E. apply H'. lia.
      * rewrite IH. split; intros H' k Hk.
        -- destruct (decide (k = S n)) as [->|]; [done|]. apply H'. lia.
        -- apply H'. lia.
Qed.

Lemma try_down_Some {A} (lo n : nat) (f : nat → option A) (r : A) :
  try_down lo n f = Some r ↔
  ∃ k, (lo ≤ k ≤ n)%nat ∧ f k = Some r ∧ ∀ j, (k < j ≤ n)%nat → f j = None.
Proof.
  induction n as [|n IH]; simpl.
  - destruct (Nat.ltb_spec 0 lo).
    + split; [done|]. intros (k & ? & _). lia.
    + destruct (f 0%nat) eqn:E.
      * split.
        -- intros [= ->]. exists 0%nat. repeat split; [lia..|done|intros; lia].
        -- intros (k & Hk & Hf & _). replace k with 0%nat in Hf by lia. congruence.
      * split; [done|].
        intros (k & Hk & Hf & _). replace k with 0%nat in Hf by lia. congruence.
  - destruct (Nat.ltb_spec (S n) lo).
    + split; [done|]. intros (k & ? & _). lia.
    + destruct (f (S n)) eqn:E.
      * split.
        -- intros [= ->]. exists (S n). repeat split; [lia..|done|intros; lia].
        -- intros (k & Hk & Hf & Hj).
           destruct (decide (k = S n)) as [->|]; [congruence|].
           rewrite Hj in E by lia. done.
      * rewrite IH. split; intros (k & Hk & Hf & Hj); exists k.
        -- repeat split; [lia..|done|]. intros j Hj'.
           destruct (decide (j = S n)) as [->|]; [done|]. apply Hj. lia.
        -- assert (k ≠ S n) by congruence.
           repeat split; [lia..|done|]. intros j Hj'. apply Hj. lia.
Qed.

Lemma match_here_sound (p : pattern) (s : str) (gs : list str) :
  match_here p s = Some gs → Matches p s gs.
Proof.
  revert s gs. induction p as [|[l|cls lo|cls lo] p IH]; intros s gs; simpl.
  - by intros [= <-].
  - destruct (startswith l s) eqn:E; [|done]. intros H.
    exists (drop (length l) s). split; [by apply startswith_inv|by apply IH].
  - intros (k & Hk & Hf & _)%try_down_Some.
    exists (take k s), (drop k s). rewrite take_drop.
    split_and!; [done|apply all_in_take_span; lia| |by apply IH].
    rewrite length_take. pose proof (span_le cls s). lia.
  - intros (k & Hk & Hf & _)%try_down_Some.
    destruct (match_here p (drop k s)) as [gs'|] eqn:E; [|done].
    simpl in Hf. injection Hf as <-.
    exists (take k s), (drop k s), gs'. rewrite take_drop.
    split_and!; [done|apply all_in_take_span; lia| |done|by apply IH].
    rewrite length_take. pose proof (span_le cls s). lia.
Qed.

Lemma match_here_complete (p : pattern) (s : str) (gs : list str) :
  Matches p s gs → is_Some (match_here p s).
Proof.
  revert s gs. induction p as [|[l|cls lo|cls lo] p IH]; intros s gs; simpl.
  - by eexists.
  - intros (s' & -> & H). rewrite startswith_app, drop_app_length. by eapply IH.
  - intros (run & s' & -> & Hrun & Hlo & H).
    destruct (try_down _ _ _) eqn:E; [by eexists|].
    rewrite try_down_None in E.
    specialize (E (length run)). rewrite drop_app_length in E.
    destruct (IH _ _ H) as [r Hr].
    rewrite E in Hr; [done|]. split; [done|by apply all_in_span].
  - intros (run & s' & gs' & -> & Hrun & Hlo & _ & H).
    destruct (try_down _ _ _) eqn:E; [by eexists|].
    rewrite try_down_None in E.
    specialize (E (length run)). rewrite drop_app_length in E.
    destruct (IH _ _ H) as [r Hr].
    rewrite Hr in E. simpl in E.
    assert (Hk : (lo ≤ length run ≤ span cls (run ++ s'))%nat)
      by (split; [done|by apply all_in_span]).
    by specialize (E Hk).
Qed.

Lemma match_here_None (p : pattern) (s : str) :
  match_here p s = None ↔ ∀ gs, ¬ Matches p s gs.
Proof.
  split.
  - intros E gs [r Hr]%match_here_complete. congruence.
  - intros H. destruct (match_here p s) as [gs|] eqn:E; [|done].
    by destruct (H gs); apply match_here_sound.
Qed.

Lemma search_None (p : pattern) (s : str) :
  search p s = None ↔ ∀ pre suf, s = pre ++ suf → match_here p suf = None.
Proof.
  induction s as [|c s IH]; simpl.
  - destruct (match_here p []) eqn:E.
    + split; [done|]. intros H. rewrite <- E. by apply (H []).
    + split; [|done]. intros _ pre suf H.
      symmetry in H. apply app_eq_nil in H as [_ ->]. done.
  - destruct (match_here p (c :: s)) eqn:E.
    + split; [done|]. intros H. rewrite <- E. by apply (H []).
    + rewrite IH. split; intros H pre suf Hs.
      * destruct pre as [|c' pre]; simpl in Hs; [by subst|].
        injection Hs as -> ->. by eapply H.
      * apply (H (c :: pre)). by rewrite Hs.
Qed.

Lemma search_Some (p : pattern) (s : str) (gs : list str) :
  search p s = Some gs ↔
  ∃ pre suf, s = pre ++ suf ∧ match_here p suf = Some gs ∧
    ∀ pre' suf', s = pre' ++ suf' → (length pre' < length pre)%nat →
                 match_here p suf' = None.
Proof.
  induction s as [|c s IH]; simpl.
  - destruct (match_here p []) eqn:E.
    + split.
      * intros [= ->]. exists [], []. repeat split; [done|]. simpl. intros; lia.
      * intros (pre & suf & Hs & Hm & _).
        symmetry in Hs. apply app_eq_nil in Hs as [_ ->]. congruence.
    + split; [done|]. intros (pre & suf & Hs & Hm & _).
      symmetry in Hs. apply app_eq_nil in Hs as [_ ->]. congruence.
  - destruct (match_here p (c :: s)) eqn:E.
    + split.
      * intros [= ->]. exists [], (c :: s). repeat split; [done|].
        simpl. intros; lia.
      * intros ([|c' pre] & suf & Hs & Hm & Hmin); simpl in Hs.
        -- subst. congruence.
        -- rewrite (Hmin [] (c :: s)) in E; [done..|simpl; lia].
    + rewrite IH. split.
      * intros (pre & suf & -> & Hm & Hmin). exists (c :: pre), suf.
        repeat split; [done|]. intros [|c' pre'] suf' Hs Hlen; simpl in *.
        -- by subst.
        -- injection Hs as -> Hs. apply (Hmin pre'); [done|lia].
      * intros ([|c' pre] & suf & Hs & Hm & Hmin); simpl in Hs.
        -- subst. congruence.
        -- injection Hs as <- ->. exists pre, suf. repeat split; [done|].
           intros pre' suf' Hs Hlen. apply (Hmin (c :: pre')).
           ++ by rewrite Hs.
           ++ simpl. lia.
Qed.

Lemma search_None_iff (p : pattern) (s : str) :
  search p s = None ↔ ¬ matches_somewhere p s.
Proof.
  rewrite search_None. unfold matches_somewhere. split.
  - intros H (pre & suf & gs & Hs & Hm).
    apply match_here_complete in Hm as [r Hr]. rewrite (H pre suf Hs) in Hr. done.
  - intros H pre suf Hs. apply match_here_None. intros gs Hm.
    apply H. by exists pre, suf, gs.
Qed.

(** Two runs of one class, each stopped by a character outside it, that
    start at the same place are the same run. *)
Lemma run_unique (cls : N → bool) (r1 r2 : str) (c1 c2 : N) (t1 t2 : str) :
  all_in cls r1 → all_in cls r2 → cls c1 = false → cls c2 = false →
  r1 ++ c1 :: t1 = r2 ++ c2 :: t2 → r1 = r2 ∧ c1 :: t1 = c2 :: t2.
Proof.
  unfold all_in. intros H1. revert r2.
  induction H1 as [|a r1 Ha _ IH]; intros r2 H2 Hc1 Hc2 Heq.
  - destruct H2 as [|b r2 Hb _]; simpl in *; [done|].
    injection Heq as -> _. congruence.
  - destruct H2 as [|b r2 Hb H2]; simpl in *.
    + injection Heq as -> _. congruence.
    + injection Heq as -> Heq. destruct (IH r2 H2 Hc1 Hc2 Heq) as [-> ?].
      done.
Qed.

End MatcherFacts.

(** ** The patterns of the client *)

Section PatternFacts.

Lemma nonempty_length (s : str) : s ≠ [] ↔ (1 ≤ length s)%nat.
Proof. destruct s; simpl; split; (done || lia). Qed.

(** A pattern that starts with a literal can only match where the literal
    occurs, so its first match is at the first occurrence that matches. *)
Lemma search_at_first_literal (l : str) (p : pattern) (body pre rest : str)
    (gs : list str) :
  body = pre ++ l ++ rest →
  none_before l body (length pre) →
  match_here (Lit l :: p) (l ++ rest) = Some gs →
  search (Lit l :: p) body = Some gs.
Proof.
  intros Hbody Hfirst Hm. apply search_Some. exists pre, (l ++ rest).
  split_and!; [done..|].
  intros pre' suf' Hs Hlen. simpl.
  destruct (startswith l suf') eqn:E; [|done].
  apply startswith_inv in E. rewrite E in Hs.
  specialize (Hfirst _ _ Hs). lia.
Qed.

Lemma labelled_text_iff (label body : str) :
  matches_somewhere
    [Lit label; Rep colon_or_space 0; Cap (not_in [lt_sign; newline]) 1] body ↔
  has_labelled_text label body.
Proof.
  unfold matches_somewhere, has_labelled_text. cbn [Matches]. split.
  - intros (pre & suf & gs & -> & s1 & -> & sep & s2 & -> & Hsep & _ &
            txt & post & gs' & -> & Htxt & Hlen & _).
    exists pre, sep, txt, post. split_and!; [done..| |done].
    by apply nonempty_length.
  - intros (pre & sep & txt & post & -> & Hsep & Hne & Htxt).
    exists pre, (label ++ sep ++ txt ++ post), [txt]. split; [done|].
    exists (sep ++ txt ++ post). split; [done|].
    exists sep, (txt ++ post). split_and!; [done..|lia|].
    exists txt, post, []. split_and!; try done. by apply nonempty_length.
Qed.

(** The token pattern matches exactly the token fields. *)
Lemma csrf_matches_iff (suf : str) (gs : list str) :
  Matches CSRF_PATTERN suf gs ↔
  ∃ ws tok post, suf = token_field ws tok ++ post ∧
    ws ≠ [] ∧ all_in is_space ws ∧ tok ≠ [] ∧ all_in (not_in [dq]) tok ∧
    gs = [tok].
Proof.
  unfold CSRF_PATTERN, token_field. cbn [Matches]. split.
  - intros (s1 & -> & ws & s2 & -> & Hws & Hlws & s3 & -> &
            tok & s4 & gs' & -> & Htok & Hltok & -> & s5 & -> & ->).
    exists ws, tok, s5. rewrite <- !app_assoc.
    split_and!; try done; by apply nonempty_length.
  - intros (ws & tok & post & -> & Hws & Hsp & Htok & Hnq & ->).
    rewrite <- !app_assoc.
    eexists. split; [done|]. exists ws. eexists. split_and!; [done..| |].
    { by apply nonempty_length. }
    eexists. split; [done|]. exists tok. eexists. exists [].
    split_and!; [done..| | |].
    { by apply nonempty_length. }
    { done. }
    by exists post.
Qed.

(** At a given place there is at most one token field. *)
Lemma token_field_unique (ws tok post ws' tok' post' : str) :
  all_in is_space ws → all_in is_space ws' →
  all_in (not_in [dq]) tok → all_in (not_in [dq]) tok' →
  token_field ws tok ++ post = token_field ws' tok' ++ post' →
  ws = ws' ∧ tok = tok'.
Proof.
  intros Hws Hws' Htok Htok'. unfold token_field. rewrite <- !app_assoc.
  intros H. do 4 apply app_inv_head in H.
  change (py "value=") with (118 :: py "alue=") in H.
  rewrite <- !app_comm_cons in H.
  apply run_unique with (cls := is_space) in H as [-> H]; [|done..].
  split; [done|]. injection H as H.
  by apply run_unique with (cls := not_in [dq]) in H as [-> _].
Qed.

Lemma csrf_search_first (body pre ws tok : str) :
  token_field_at body pre ws tok →
  (∀ pre' ws' tok', token_field_at body pre' ws' tok' →
                    (length pre ≤ length pre')%nat) →
  search CSRF_PATTERN body = Some [tok].
Proof.
  intros ([post Hbody] & Hws & Hsp & Htok & Hnq) Hfirst.
  apply search_Some. exists pre, (token_field ws tok ++ post).
  split_and!; [done| |].
  - destruct (match_here_complete CSRF_PATTERN (token_field ws tok ++ post) [tok])
      as [gs Hgs].
    { apply csrf_matches_iff. by exists ws, tok, post. }
    rewrite Hgs. f_equal.
    apply match_here_sound, csrf_matches_iff in Hgs
      as (ws' & tok' & post' & Heq & _ & Hsp' & _ & Hnq' & ->).
    by apply token_field_unique in Heq as [_ ->].
  - intros pre' suf' Hs Hlen.
    destruct (match_here CSRF_PATTERN suf') as [gs|] eqn:E; [|done].
    apply match_here_sound, csrf_matches_iff in E
      as (ws' & tok' & post' & -> & ? & ? & ? & ? & _).
    assert (length pre ≤ length pre')%nat; [|lia].
    apply (Hfirst pre' ws' tok'). split_and!; try done. by exists post'.
Qed.

Lemma csrf_search_none (body : str) :
  (∀ pre ws tok, ¬ token_field_at body pre ws tok) →
  search CSRF_PATTERN body = None.
Proof.
  intros Hnone. apply search_None_iff.
  intros (pre & suf & gs & -> & (ws & tok & post & -> & ? & ? & ? & ? & _)%csrf_matches_iff).
  apply (Hnone pre ws tok). split_and!; try done. by exists post.
Qed.

End PatternFacts.

(** ** The result classifier *)

Section Classifier.

Implicit Types (self : Serv00Client) (response : Response) (username : str).

(** C1. A body that contains one of the banned keywords is classified
    [BANNED], whatever other keywords (success or login-page ones) it also
    contains: the banned keywords are looked for first. *)
Theorem banned_keyword_has_priority self response username (kw : str) :
  kw ∈ BANNED_KEYWORDS → occurs kw (text response) →
  status (_parse_login_result self response username) = BANNED.
Proof.
  intros Hkw Hocc. unfold _parse_login_result.
  assert (contains_any BANNED_KEYWORDS (text response) = true) as ->; [|done].
  apply contains_any_spec. eauto.
Qed.

(** C5. A body that contains none of the banned, success and login-page
    keywords is classified [UNKNOWN], and the details of the result hold
    the final URL of the response (after a fixed label). *)
Theorem no_keyword_is_unknown self response username :
  (∀ kw, kw ∈ BANNED_KEYWORDS ++ SUCCESS_KEYWORDS ++ LOGIN_PAGE_KEYWORDS →
         ¬ occurs kw (text response)) →
  let result := _parse_login_result self response username in
  status result = UNKNOWN ∧
  details result = Some (UNKNOWN_DETAIL_PREFIX ++ url response) ∧
  ∃ d, details result = Some d ∧ occurs (url response) d.
Proof.
  intros Hnone. unfold _parse_login_result.
  assert (contains_any BANNED_KEYWORDS (text response) = false) as ->.
  { apply contains_any_false. intros k Hk. apply Hnone. rewrite !elem_of_app. auto. }
  assert (contains_any SUCCESS_KEYWORDS (text response) = false) as ->.
  { apply contains_any_false. intros k Hk. apply Hnone. rewrite !elem_of_app. auto. }
  assert (contains_any LOGIN_PAGE_KEYWORDS (text response) = false) as ->.
  { apply contains_any_false. intros k Hk. apply Hnone. rewrite !elem_of_app. auto. }
  simpl. split_and!; [done..|].
  eexists. split; [done|]. exists UNKNOWN_DETAIL_PREFIX, []. by rewrite app_nil_r.
Qed.

End Classifier.

Lemma banned_keyword_has_priority_witness :
  let response := mkResponse 200 (py "<h1>Dashboard</h1> Login: account blocked") (py "https://panel12.serv00.com/") [] in
  py "blocked" ∈ BANNED_KEYWORDS ∧
  occurs (py "Dashboard") (text response) ∧
  occurs (py "blocked") (text response) ∧
  status (_parse_login_result example_client response (py "alice")) = BANNED.
Proof.
  intros response.
  assert (H1 : py "blocked" ∈ BANNED_KEYWORDS) by (unfold BANNED_KEYWORDS; set_solver).
  assert (H2 : occurs (py "blocked") (text response))
    by (apply contains_spec; vm_compute; reflexivity).
  split_and!; [done| |done|].
  - apply contains_spec; vm_compute; reflexivity.
  - exact (banned_keyword_has_priority example_client response (py "alice") (py "blocked") H1 H2).
Defined.

Lemma no_keyword_is_unknown_witness :
  let response := mkResponse 200 (py "<html>maintenance</html>") (py "https://panel12.serv00.com/x") [] in
  let result := _parse_login_result example_client response (py "alice") in
  status result = UNKNOWN ∧
  details result = Some (py "响应 URL: https://panel12.serv00.com/x").
Proof.
  intros response result.
  assert (H : ∀ kw, kw ∈ BANNED_KEYWORDS ++ SUCCESS_KEYWORDS ++ LOGIN_PAGE_KEYWORDS →
         ¬ occurs kw (text response))
    by (apply contains_any_false; vm_compute; reflexivity).
  destruct (no_keyword_is_unknown example_client response (py "alice") H) as (Hs & Hd & _).
  split; [exact Hs|]. etrans; [exact Hd|]. vm_compute. reflexivity.
Defined.

(** ** The detail extractors *)

Section Extractors.

Implicit Types (self : Serv00Client) (response : Response) (username : str).

Lemma _extract_ban_reason_default (content : str) :
  ¬ has_labelled_text (py "Konto zablokowane") content →
  _extract_ban_reason content = Some DEFAULT_BAN_REASON.
Proof.
  intros Hno. unfold _extract_ban_reason.
  assert (search BAN_REASON_PATTERN content = None) as ->; [|done].
  apply search_None_iff. intros Hm. apply Hno. by apply labelled_text_iff.
Qed.

Lemma _extract_account_validity_none (content : str) :
  ¬ has_labelled_text (py "Konto ważne do") content →
  _extract_account_validity content = None.
Proof.
  intros Hno. unfold _extract_account_validity.
  assert (search VALIDITY_PATTERN content = None) as ->; [|done].
  apply search_None_iff. intros Hm. apply Hno. by apply labelled_text_iff.
Qed.

Lemma _extract_ban_reason_example (pre post : str) :
  let content := pre ++ py "Konto zablokowane: spam abuse<br>" ++ post in
  none_before (py "Konto zablokowane") content (length pre) →
  _extract_ban_reason content = Some (py "spam abuse").
Proof.
  intros content Hfirst. unfold _extract_ban_reason, BAN_REASON_PATTERN.
  rewrite (search_at_first_literal (py "Konto zablokowane") _ content pre
             (py ": spam abuse<br>" ++ post) [py "spam abuse"]);
    [vm_compute; reflexivity|subst content; vm_compute; reflexivity|exact Hfirst|
     vm_compute; reflexivity].
Qed.

Lemma _extract_account_validity_example (pre post : str) :
  let content := pre ++ py "Konto ważne do: 2 stycznia 2036</td>" ++ post in
  none_before (py "Konto ważne do") content (length pre) →
  _extract_account_validity content = Some (py "有效期至: 2 stycznia 2036").
Proof.
  intros content Hfirst. unfold _extract_account_validity, VALIDITY_PATTERN.
  rewrite (search_at_first_literal (py "Konto ważne do") _ content pre
             (py ": 2 stycznia 2036</td>" ++ post) [py "2 stycznia 2036"]);
    [vm_compute; reflexivity|subst content; vm_compute; reflexivity|exact Hfirst|
     vm_compute; reflexivity].
Qed.

(** C7, as amended. When the first [Konto zablokowane] of the body is the
    one of [Konto zablokowane: spam abuse<br>], the result is [BANNED] with
    the detail [spam abuse]; when a banned keyword occurs and the body has
    no [Konto zablokowane] followed by separators and a text, the result
    is [BANNED] with the default reason of the source, [TOS 违规]. *)
Theorem ban_reason_detail self response username :
  let result := _parse_login_result self response username in
  (∀ pre post,
     text response = pre ++ py "Konto zablokowane: spam abuse<br>" ++ post →
     none_before (py "Konto zablokowane") (text response) (length pre) →
     status result = BANNED ∧ details result = Some (py "spam abuse")) ∧
  ((∃ kw, kw ∈ BANNED_KEYWORDS ∧ occurs kw (text response)) →
   ¬ has_labelled_text (py "Konto zablokowane") (text response) →
   status result = BANNED ∧ details result = Some (py "TOS 违规")).
Proof.
  intros result. subst result. unfold _parse_login_result. split.
  - intros pre post Hbody Hfirst.
    assert (contains_any BANNED_KEYWORDS (text response) = true) as ->.
    { apply contains_any_spec. exists (py "Konto zablokowane"). split.
      - unfold BANNED_KEYWORDS. apply list_elem_of_here.
      - exists pre, (py ": spam abuse<br>" ++ post). by rewrite Hbody. }
    simpl. split; [done|]. rewrite Hbody in Hfirst |- *.
    by apply _extract_ban_reason_example.
  - intros Hkw Hno.
    assert (contains_any BANNED_KEYWORDS (text response) = true) as ->
      by by apply contains_any_spec.
    simpl. split; [done|]. by apply _extract_ban_reason_default.
Qed.

(** C9, as amended. For a body without banned keyword and with a success keyword:
    when its first [Konto ważne do] is the one of
    [Konto ważne do: 2 stycznia 2036</td>], the result is [ACTIVE] with the
    detail [有效期至: 2 stycznia 2036], the validity label followed by the
    date text; when the body has no [Konto ważne do] followed by
    separators and a text, the result is [ACTIVE] all the same and its
    detail is absent. *)
Theorem account_validity_detail self response username :
  (∀ kw, kw ∈ BANNED_KEYWORDS → ¬ occurs kw (text response)) →
  (∃ kw, kw ∈ SUCCESS_KEYWORDS ∧ occurs kw (text response)) →
  let result := _parse_login_result self response username in
  (∀ pre post,
     text response = pre ++ py "Konto ważne do: 2 stycznia 2036</td>" ++ post →
     none_before (py "Konto ważne do") (text response) (length pre) →
     status result = ACTIVE ∧
     details result = Some (py "有效期至: 2 stycznia 2036")) ∧
  (¬ has_labelled_text (py "Konto ważne do") (text response) →
   status result = ACTIVE ∧ details result = None).
Proof.
  intros Hban Hok result. subst result. unfold _parse_login_result.
  assert (contains_any BANNED_KEYWORDS (text response) = false) as ->
    by by apply contains_any_false.
  assert (contains_any SUCCESS_KEYWORDS (text response) = true) as ->
    by by apply contains_any_spec.
  simpl. split.
  - intros pre post Hbody Hfirst. split; [done|].
    rewrite Hbody in Hfirst |- *. by apply _extract_account_validity_example.
  - intros Hno. split; [done|]. by apply _extract_account_validity_none.
Qed.

End Extractors.

Lemma ban_reason_detail_witness :
  let response :=
    mkResponse 200 (py "<p>Konto zablokowane: spam abuse<br></p>")
      (py "https://panel12.serv00.com/") [] in
  let result := _parse_login_result example_client response alice in
  status result = BANNED ∧ details result = Some (py "spam abuse").
Proof.
  intros response result.
  destruct (ban_reason_detail example_client response alice) as [H _].
  apply (H (py "<p>") (py "</p>")); [reflexivity|].
  apply no_earlier_by_check. vm_compute. reflexivity.
Defined.

(** The default reason is not the English phrase of the claim. *)
Lemma ban_reason_detail_counterexample :
  let response :=
    mkResponse 200 (py "<p>Account blocked</p>")
      (py "https://panel12.serv00.com/") [] in
  let result := _parse_login_result example_client response alice in
  search BAN_REASON_PATTERN (text response) = None ∧
  ¬ has_labelled_text (py "Konto zablokowane") (text response) ∧
  status result = BANNED ∧
  details result = Some (py "TOS 违规") ∧
  details result ≠ Some (py "policy violation").
Proof.
  intros response result.
  assert (Hs : search BAN_REASON_PATTERN (text response) = None)
    by (vm_compute; reflexivity).
  split_and!; [done| |vm_compute; reflexivity..|vm_compute; discriminate].
  rewrite <- labelled_text_iff. by apply search_None_iff.
Qed.

Lemma account_validity_detail_witness :
  let with_date :=
    mkResponse 200
      (py "<h1>Dashboard</h1><td>Konto ważne do: 2 stycznia 2036</td>")
      (py "https://panel12.serv00.com/") [] in
  let without :=
    mkResponse 200 (py "<h1>Dashboard</h1>") (py "https://panel12.serv00.com/") [] in
  (status (_parse_login_result example_client with_date alice) = ACTIVE ∧
   details (_parse_login_result example_client with_date alice)
     = Some (py "有效期至: 2 stycznia 2036")) ∧
  (status (_parse_login_result example_client without alice) = ACTIVE ∧
   details (_parse_login_result example_client without alice) = None).
Proof.
  intros with_date without. split.
  - destruct (account_validity_detail example_client with_date alice) as [H _].
    + apply contains_any_false. vm_compute. reflexivity.
    + apply contains_any_spec. vm_compute. reflexivity.
    + apply (H (py "<h1>Dashboard</h1><td>") []); [reflexivity|].
      apply no_earlier_by_check. vm_compute. reflexivity.
  - destruct (account_validity_detail example_client without alice) as [_ H].
    + apply contains_any_false. vm_compute. reflexivity.
    + apply contains_any_spec. vm_compute. reflexivity.
    + apply H. rewrite <- labelled_text_iff. apply search_None_iff.
      vm_compute. reflexivity.
Defined.

(** The search takes the leftmost match: in a body that holds the line of
    the example after another validity line, the detail is the date of
    the other line. *)
Lemma account_validity_detail_counterexample :
  let response :=
    mkResponse 200
      (py "<h1>Dashboard</h1><td>Konto ważne do: 1 maja 2030</td><td>Konto ważne do: 2 stycznia 2036</td>")
      (py "https://panel12.serv00.com/") [] in
  let result := _parse_login_result example_client response alice in
  occurs (py "Konto ważne do: 2 stycznia 2036</td>") (text response) ∧
  occurs (py "Dashboard") (text response) ∧
  status result = ACTIVE ∧
  details result = Some (py "有效期至: 1 maja 2030") ∧
  details result ≠ Some (py "有效期至: 2 stycznia 2036").
Proof.
  intros response result. split_and!.
  - apply contains_spec. vm_compute. reflexivity.
  - apply contains_spec. vm_compute. reflexivity.
  - vm_compute. reflexivity.
  - vm_compute. reflexivity.
  - vm_compute. discriminate.
Qed.

(** ** The session client *)

Section ClientFacts.

Variable default_headers : Headers.
Variable transport : list Request → Request → Outcome.

Local Abbreviation get_csrf_token := (get_csrf_token transport).
Local Abbreviation _do_login := (_do_login transport).
Local Abbreviation login := (login default_headers transport).
Local Abbreviation login_loop := (login_loop default_headers transport).
Local Abbreviation reset_session := (reset_session default_headers).
Local Abbreviation world_before := (world_before default_headers transport).
Local Abbreviation attempt_raises := (attempt_raises default_headers transport).

Implicit Types (w : World) (username password e : str).

(** Every call through the session leaves the URL and the timeout of the
    client alone and adds its request to the log. *)
Lemma send_frame (req : Request) w :
  panel_url (self (send transport req w).2) = panel_url (self w) ∧
  timeout (self (send transport req w).2) = timeout (self w) ∧
  sent (send transport req w).2 = sent w ++ [req].
Proof. unfold send. simpl. by destruct (transport (sent w) req). Qed.

Lemma get_csrf_token_frame w :
  panel_url (self (get_csrf_token w).2) = panel_url (self w) ∧
  timeout (self (get_csrf_token w).2) = timeout (self w) ∧
  sent (get_csrf_token w).2 = sent w ++ [token_request (self w)].
Proof.
  unfold Serv00.get_csrf_token, session_get.
  pose proof (send_frame (token_request (self w)) w) as Hs.
  unfold token_request in *.
  destruct (send _ _ _) as [o w'] eqn:E. simpl in Hs.
  destruct o as [e|response]; [done|].
  destruct (raise_for_status response); [done|].
  by destruct (search _ _).
Qed.

Lemma _do_login_frame username password w :
  panel_url (self (_do_login username password w).2) = panel_url (self w) ∧
  timeout (self (_do_login username password w).2) = timeout (self w).
Proof.
  unfold Serv00._do_login.
  pose proof (get_csrf_token_frame w) as (Hp & Ht & _).
  destruct (get_csrf_token w) as [tok w1]. simpl in Hp, Ht.
  destruct (negb (truthy tok)); [done|].
  unfold session_post.
  match goal with |- context [send _ ?r _] =>
    pose proof (send_frame r w1) as (Hp' & Ht' & _) end.
  destruct (send _ _ _) as [o w2] eqn:E. simpl in Hp', Ht'.
  destruct o; simpl; split; congruence.
Qed.

Lemma world_before_frame username password k w :
  panel_url (self (world_before username password k w)) = panel_url (self w).
Proof.
  induction k as [|k IH]; [done|]. simpl.
  by destruct (_do_login_frame username password (world_before username password k w)) as [-> _].
Qed.

(** The worlds of the attempts, read from the first attempt on. *)
Lemma world_before_S username password k w :
  world_before username password (S k) w =
  world_before username password k
    (reset_session (_do_login username password w).2).
Proof. induction k as [|k IH]; [done|]. simpl in *. by rewrite IH. Qed.

(** A token fetch that yields nothing ends [_do_login] at once. *)
Lemma _do_login_no_token username password w :
  (get_csrf_token w).1 = None →
  _do_login username password w =
    (inr (mkLoginResult NETWORK_ERROR TOKEN_ERROR_MESSAGE (panel_url (self w))
            username None), (get_csrf_token w).2).
Proof.
  intros H. unfold Serv00._do_login.
  pose proof (get_csrf_token_frame w) as (Hp & _).
  destruct (get_csrf_token w) as [tok w1]. simpl in *. subst tok. simpl.
  by rewrite Hp.
Qed.

(** What a returning [_do_login] returns: the token failure, or the
    classification of the response to its POST. *)
Lemma _do_login_returns username password w (result : LoginResult) :
  (_do_login username password w).1 = inr result →
  ((get_csrf_token w).1 = None ∧
   result = mkLoginResult NETWORK_ERROR TOKEN_ERROR_MESSAGE (panel_url (self w))
              username None) ∨
  (∃ hist req response,
     method req = POST ∧ transport hist req = Returns response ∧
     result = _parse_login_result (self (_do_login username password w).2)
                response username).
Proof.
  unfold Serv00._do_login.
  pose proof (get_csrf_token_frame w) as (Hp & _).
  assert (Hnil : ∀ w', get_csrf_token w' = (Some [], (get_csrf_token w').2) → False).
  { intros w'. unfold Serv00.get_csrf_token, session_get. destruct (send _ _ _) as [[|r] ?];
      [done|]. destruct (raise_for_status r); [done|].
    destruct (search _ _) as [gs|] eqn:E; [|done].
    apply search_Some in E as (pre & suf & _ & Hm%match_here_sound & _).
    simpl in Hm. destruct Hm as (s1 & _ & r1 & s2 & _ & _ & _ & s3 & _ & r2 & s4 & gs' & _ & _ & Hlen & -> & _).
    simpl. intros [= ->]. simpl in Hlen. lia. }
  destruct (get_csrf_token w) as [[[|c tok]|] w1] eqn:Etok; simpl in *.
  - destruct (Hnil w). rewrite Etok. done.
  - unfold session_post, send. simpl.
    match goal with |- context [transport ?h ?r] =>
      destruct (transport h r) as [e|response] eqn:E; simpl; [done|];
      intros [= <-]; right; exists h, r, response end.
    done.
  - intros [= <-]. left. by rewrite Hp.
Qed.

Lemma attempt_raises_S username password i w e :
  attempt_raises username password (S i) w e ↔
  attempt_raises username password i
    (reset_session (_do_login username password w).2) e.
Proof. unfold Reading.attempt_raises. by rewrite world_before_S. Qed.

(** The loop returns the result of the first attempt that returns. *)
Lemma login_loop_returns username password rc k n last w (result : LoginResult) :
  (∀ i, (i < k)%nat → ∃ e, attempt_raises username password i w e) →
  (_do_login username password (world_before username password k w)).1
    = inr result →
  login_loop rc (k + S n) username password last w =
    (result, (_do_login username password (world_before username password k w)).2).
Proof.
  revert last w. induction k as [|k IH]; intros last w Hall Hret.
  - change (world_before username password 0 w) with w in *.
    cbn [Nat.add Serv00.login_loop].
    destruct (_do_login username password w) as [[e|r] w']; simpl in *; congruence.
  - destruct (Hall 0%nat ltac:(lia)) as [e0 He0].
    unfold Reading.attempt_raises in He0.
    change (world_before username password 0 w) with w in He0.
    rewrite world_before_S in *.
    cbn [Nat.add Serv00.login_loop].
    destruct (_do_login username password w) as [[e|r] w'] eqn:E;
      simpl in He0; [|done].
    simpl in Hret |- *. apply IH; [|done].
    intros i Hi. destruct (Hall (S i) ltac:(lia)) as [e1 He1]. exists e1.
    apply attempt_raises_S in He1. by rewrite E in He1.
Qed.

(** When all [n] attempts raise, the loop ends in the final [return], with
    the text of the last exception. *)
Lemma login_loop_all_raise username password rc n last w :
  (∀ i, (i < S n)%nat → ∃ e, attempt_raises username password i w e) →
  ∃ e, attempt_raises username password n w e ∧
    login_loop rc (S n) username password last w =
      (mkLoginResult NETWORK_ERROR (retries_message rc) (panel_url (self w))
         username (Some e),
       world_before username password (S n) w).
Proof.
  revert last w. induction n as [|n IH]; intros last w Hall.
  - destruct (Hall 0%nat ltac:(lia)) as [e0 He0]. exists e0. split; [done|].
    unfold Reading.attempt_raises in He0.
    change (world_before username password 0 w) with w in He0.
    cbn [Serv00.login_loop Reading.world_before].
    pose proof (_do_login_frame username password w) as [Hp _].
    destruct (_do_login username password w) as [[e|r] w'] eqn:E;
      simpl in He0, Hp |- *; [|done].
    injection He0 as ->. by rewrite Hp.
  - destruct (Hall 0%nat ltac:(lia)) as [e0 He0].
    unfold Reading.attempt_raises in He0.
    change (world_before username password 0 w) with w in He0.
    pose proof (_do_login_frame username password w) as [Hp _].
    destruct (IH (Some e0) (reset_session (_do_login username password w).2))
      as (e & He & Hloop).
    { intros i Hi. destruct (Hall (S i) ltac:(lia)) as [e1 He1]. exists e1.
      by apply attempt_raises_S. }
    exists e. split; [by apply attempt_raises_S|].
    rewrite (world_before_S username password (S n)).
    change (login_loop rc (S (S n)) username password last w) with
      (match _do_login username password w with
       | (inr result, w') => (result, w')
       | (inl e, w') =>
           login_loop rc (S n) username password (Some e) (reset_session w')
       end).
    destruct (_do_login username password w) as [[e'|r] w'] eqn:E;
      simpl in He0, Hp, Hloop |- *; [|done].
    injection He0 as ->. by rewrite Hloop, Hp.
Qed.

(** C2. With [retry_count > 1], when the first token fetch yields nothing,
    [login] returns at once a [NETWORK_ERROR] result without details; the
    only request sent is the GET of that fetch, so no further attempt is
    made. *)
Theorem token_failure_returns_at_once username password (retry_count : Z) w :
  (1 < retry_count)%Z →
  (get_csrf_token w).1 = None →
  let out := login username password retry_count w in
  out.1 = mkLoginResult NETWORK_ERROR TOKEN_ERROR_MESSAGE (panel_url (self w))
            username None ∧
  status out.1 = NETWORK_ERROR ∧ details out.1 = None ∧
  out.2 = (get_csrf_token w).2 ∧
  sent out.2 = sent w ++ [token_request (self w)].
Proof.
  intros Hrc Htok out. subst out. unfold Serv00.login.
  destruct (Z.to_nat retry_count) as [|n] eqn:En; [lia|].
  cbn [Serv00.login_loop]. rewrite (_do_login_no_token _ _ _ Htok). simpl.
  split_and!; try done. apply get_csrf_token_frame.
Qed.

(** C10. With [retry_count <= 0] the loop body never runs: [login] sends
    no request (the world is unchanged) and returns a [NETWORK_ERROR]
    result whose details are absent. *)
Theorem nonpositive_retry_count_sends_nothing username password
    (retry_count : Z) w :
  (retry_count ≤ 0)%Z →
  let out := login username password retry_count w in
  status out.1 = NETWORK_ERROR ∧ details out.1 = None ∧
  out.2 = w ∧ sent out.2 = sent w.
Proof.
  intros Hrc out. subst out. unfold Serv00.login.
  replace (Z.to_nat retry_count) with 0%nat by lia. done.
Qed.

(** C3, as amended. With [retry_count = N >= 1]: when each of the [N]
    attempts raises a transport exception, [login] returns (it has no
    other way out: its type is a result) the [NETWORK_ERROR] result whose
    message is the source's text built around [N] and whose details are
    the text of the last exception; when an attempt returns after the
    earlier ones raised, [login] returns that attempt's result at once,
    with no request after it, and this result is the classification of
    the POST's response or, when the token fetch failed, the token
    failure. *)
Theorem login_retry_outcomes username password (retry_count : Z) w :
  (1 ≤ retry_count)%Z →
  let N := Z.to_nat retry_count in
  ((∀ i, (i < N)%nat → ∃ e, attempt_raises username password i w e) →
   ∃ e, attempt_raises username password (N - 1) w e ∧
     login username password retry_count w =
       (mkLoginResult NETWORK_ERROR
          (py "网络错误 (重试 " ++ str_of_int retry_count ++ py " 次后失败)")
          (panel_url (self w)) username (Some e),
        world_before username password N w)) ∧
  (∀ k result,
     (k < N)%nat →
     (∀ i, (i < k)%nat → ∃ e, attempt_raises username password i w e) →
     (_do_login username password (world_before username password k w)).1
       = inr result →
     login username password retry_count w =
       (result,
        (_do_login username password (world_before username password k w)).2) ∧
     (result = mkLoginResult NETWORK_ERROR TOKEN_ERROR_MESSAGE
                 (panel_url (self w)) username None ∨
      ∃ hist req response,
        method req = POST ∧ transport hist req = Returns response ∧
        result = _parse_login_result
                   (self (_do_login username password
                            (world_before username password k w)).2)
                   response username)).
Proof.
  intros Hrc N. unfold Serv00.login. fold N. split.
  - intros Hall. destruct N as [|n] eqn:EN; [lia|].
    destruct (login_loop_all_raise username password retry_count n None w Hall)
      as (e & He & Hloop).
    exists e. split; [by replace (S n - 1)%nat with n by lia|done].
  - intros k result Hk Hall Hret. split.
    + replace N with (k + S (N - S k))%nat by lia.
      by apply login_loop_returns.
    + apply _do_login_returns in Hret as [[_ ->]|H]; [left|by right].
      by rewrite world_before_frame.
Qed.

End ClientFacts.

(** ** The token fetch *)

Section TokenFetch.

Variable transport : list Request → Request → Outcome.

Lemma get_csrf_token_unfold (w : World) :
  (get_csrf_token transport w).1 =
  match transport (sent w) (token_request (self w)) with
  | Raises _ => None
  | Returns response =>
      if raise_for_status response then None
      else group1 <$> search CSRF_PATTERN (text response)
  end.
Proof.
  unfold get_csrf_token, session_get, send, token_request. simpl.
  destruct (transport _ _) as [e|response]; [done|].
  destruct (raise_for_status response); [done|].
  by destruct (search _ _).
Qed.

(** C4, as amended. [get_csrf_token] yields nothing when the GET raises a
    transport exception and when the response has an error status (400 to
    599), and no exception leaves it.  For any other status (the 2xx ones
    among them) it yields the token of the first token field of the body,
    and nothing when the body has no such field; the body of the example
    gives [abc123XYZ]. *)
Theorem get_csrf_token_outcomes (w : World) :
  let outcome := transport (sent w) (token_request (self w)) in
  let token := (get_csrf_token transport w).1 in
  (∀ e, outcome = Raises e → token = None) ∧
  (∀ response, outcome = Returns response →
     (400 ≤ status_code response < 600)%Z → token = None) ∧
  (∀ response, outcome = Returns response →
     ¬ (400 ≤ status_code response < 600)%Z →
     (∀ pre ws tok,
        token_field_at (text response) pre ws tok →
        (∀ pre' ws' tok', token_field_at (text response) pre' ws' tok' →
                          (length pre ≤ length pre')%nat) →
        token = Some tok) ∧
     ((∀ pre ws tok, ¬ token_field_at (text response) pre ws tok) →
      token = None) ∧
     (text response = token_page → token = Some (py "abc123XYZ"))).
Proof.
  intros outcome token. subst token. rewrite get_csrf_token_unfold. fold outcome.
  split_and!.
  - by intros e ->.
  - intros response -> Hcode. unfold raise_for_status.
    by replace ((400 <=? _) && (_ <? 600))%Z with true by lia.
  - intros response -> Hcode. unfold raise_for_status.
    replace ((400 <=? _) && (_ <? 600))%Z with false by lia.
    split_and!.
    + intros pre ws tok Hat Hfirst. by rewrite (csrf_search_first _ _ _ _ Hat Hfirst).
    + intros Hnone. by rewrite (csrf_search_none _ Hnone).
    + intros ->. vm_compute. reflexivity.
Qed.

End TokenFetch.

Lemma get_csrf_token_outcomes_witness :
  (get_csrf_token (transport_status 200) example_world).1 = Some (py "abc123XYZ") ∧
  (get_csrf_token (transport_status 503) example_world).1 = None ∧
  (get_csrf_token transport_post_fails
     (mkWorld example_client [])).1 = Some (py "abc123XYZ").
Proof.
  split_and!.
  - destruct (get_csrf_token_outcomes (transport_status 200) example_world)
      as (_ & _ & H).
    destruct (H _ eq_refl) as (_ & _ & Hex); [simpl; lia|]. by apply Hex.
  - destruct (get_csrf_token_outcomes (transport_status 503) example_world)
      as (_ & H & _).
    apply (H _ eq_refl). simpl. lia.
  - vm_compute. reflexivity.
Defined.

(** A status outside 2xx that is not an error status does not stop the
    fetch: a 304 response with the token field yields the token. *)
Lemma get_csrf_token_outcomes_counterexample :
  transport_status 304 (sent example_world) (token_request (self example_world))
    = page 304 token_page ∧
  ¬ (200 ≤ 304 < 300)%Z ∧
  (get_csrf_token (transport_status 304) example_world).1 = Some (py "abc123XYZ").
Proof. split_and!; [done|lia|]. vm_compute. reflexivity. Qed.

(** ** Which results carry details *)

Section Details.

Variable default_headers : Headers.
Variable transport : list Request → Request → Outcome.

Implicit Types (w : World) (username password e d : str).

(** The text that [_do_login] raises is the text of an exception the
    transport raised on a POST. *)
Lemma _do_login_raises username password w e :
  (_do_login transport username password w).1 = inl e →
  ∃ hist req, method req = POST ∧ transport hist req = Raises e.
Proof.
  unfold _do_login.
  destruct (get_csrf_token transport w) as [tok w1].
  destruct (negb (truthy tok)); [done|].
  unfold session_post, send. simpl.
  match goal with |- context [transport ?h ?r] =>
    destruct (transport h r) as [e'|response] eqn:E; simpl; [|done];
    intros [= <-]; by exists h, r end.
Qed.

(** The details of a classification, status by status. *)
Lemma _parse_login_result_details (c : Serv00Client) (response : Response)
    username :
  let result := _parse_login_result c response username in
  (status result = BANNED ∧ details result = _extract_ban_reason (text response)) ∨
  (status result = ACTIVE ∧
   details result = _extract_account_validity (text response)) ∨
  (status result = LOGIN_FAILED ∧
   (details result = _extract_error_message (text response) ∨
    details result = Some DEFAULT_LOGIN_ERROR)) ∨
  (status result = UNKNOWN ∧
   details result = Some (UNKNOWN_DETAIL_PREFIX ++ url response)).
Proof.
  unfold _parse_login_result.
  destruct (contains_any BANNED_KEYWORDS _); [by left|].
  destruct (contains_any SUCCESS_KEYWORDS _); [by right; left|].
  destruct (contains_any LOGIN_PAGE_KEYWORDS _); [|by right; right; right].
  right; right; left. simpl. split; [done|].
  destruct (truthy _); [by left|by right].
Qed.

(** The loop ends with the final [NETWORK_ERROR] result, whose details are
    the last error, or with the result of a returning [_do_login]. *)
Lemma login_loop_result username password rc n (last : option str) w :
  let result := (login_loop default_headers transport rc n username password
                   last w).1 in
  (status result = NETWORK_ERROR ∧
   (details result = last ∨
    ∃ e hist req, details result = Some e ∧ transport hist req = Raises e)) ∨
  (∃ w', (_do_login transport username password w').1 = inr result).
Proof.
  revert last w. induction n as [|n IH]; intros last w; simpl.
  - left. split; [done|]. by left.
  - destruct (_do_login transport username password w) as [[e|r] w'] eqn:E.
    + destruct (IH (Some e) (reset_session default_headers w'))
        as [[Hs [Hd|Hd]]|Hr]; [left; split; [done|]; right|by left; split; [|right]|by right].
      destruct (_do_login_raises username password w e) as (hist & req & _ & Hraise);
        [by rewrite E|].
      by exists e, hist, req.
    + right. exists w. by rewrite E.
Qed.

(** C6, as amended. When the result of [login] carries details, its status
    is [BANNED] (the ban reason), [ACTIVE] (the validity text),
    [LOGIN_FAILED] (the error text or its default), [UNKNOWN] (the label
    and the final URL), or it is [NETWORK_ERROR] and the details are the
    text of a transport exception; in particular the token failure and the
    result for an empty loop carry none. *)
Theorem details_only_for username password (retry_count : Z) w d :
  let result := (login default_headers transport username password
                   retry_count w).1 in
  details result = Some d →
  (status result = BANNED ∧
   ∃ response, Some d = _extract_ban_reason (text response)) ∨
  (status result = ACTIVE ∧
   ∃ response, Some d = _extract_account_validity (text response)) ∨
  (status result = LOGIN_FAILED ∧
   ∃ response, Some d = _extract_error_message (text response) ∨
               d = DEFAULT_LOGIN_ERROR) ∨
  (status result = UNKNOWN ∧
   ∃ response, d = UNKNOWN_DETAIL_PREFIX ++ url response) ∨
  (status result = NETWORK_ERROR ∧
   ∃ hist req, transport hist req = Raises d).
Proof.
  intros result Hd. subst result. unfold login in *.
  destruct (login_loop_result username password retry_count
              (Z.to_nat retry_count) None w) as [[Hs [Hn|Hn]]|[w' Hr]].
  - congruence.
  - destruct Hn as (e & hist & req & He & Hraise).
    do 4 right. split; [done|]. exists hist, req. congruence.
  - apply _do_login_returns in Hr as [[_ Hr]|(hist & req & response & _ & _ & Hr)].
    + rewrite Hr in Hd. done.
    + rewrite Hr in Hd |- *.
      destruct (_parse_login_result_details
                  (self (_do_login transport username password w').2)
                  response username)
        as [[-> H]|[[-> H]|[[-> H]|[-> H]]]]; rewrite Hd in H.
      * left. split; [done|]. by exists response.
      * right; left. split; [done|]. by exists response.
      * right; right; left. split; [done|]. exists response.
        destruct H as [H|[= ->]]; [by left|by right].
      * do 3 right; left. split; [done|]. exists response. congruence.
Qed.

End Details.

Lemma details_only_for_witness :
  let out := login ∅ (transport_answers (py "<html>maintenance</html>")) alice
               secret 3 example_world in
  details out.1 = Some (py "响应 URL: https://panel12.serv00.com/login/") ∧
  status out.1 = UNKNOWN.
Proof.
  intros out.
  assert (Hd : details out.1 = Some (py "响应 URL: https://panel12.serv00.com/login/"))
    by (vm_compute; reflexivity).
  split; [exact Hd|].
  destruct (details_only_for ∅ (transport_answers (py "<html>maintenance</html>"))
              alice secret 3 example_world _ Hd)
    as [[H _]|[[H _]|[[H _]|[[H _]|[H _]]]]]; try exact H;
    vm_compute in H; discriminate H.
Defined.

(** A result can carry details with a status the claim leaves out: the
    [UNKNOWN] result always does. *)
Lemma details_only_for_counterexample :
  let out := login ∅ (transport_answers (py "<html>maintenance</html>")) alice
               secret 3 example_world in
  details out.1 = Some (py "响应 URL: https://panel12.serv00.com/login/") ∧
  status out.1 ≠ BANNED ∧ status out.1 ≠ ACTIVE ∧
  status out.1 ≠ LOGIN_FAILED ∧ status out.1 ≠ NETWORK_ERROR.
Proof. intros out. split_and!; vm_compute; (reflexivity || discriminate). Qed.

(** ** The session after a failed attempt *)

Section SessionReset.

Variable default_headers : Headers.
Variable transport : list Request → Request → Outcome.

Lemma headers_update_other (items : list (str * str)) (h : Headers) (k : str) :
  Forall (λ kv, lower kv.1 ≠ k) items →
  headers_update items h !! k = h !! k.
Proof.
  unfold headers_update. intros Hall. revert h.
  induction Hall as [|kv items Hkv _ IH]; intros h; simpl; [done|].
  by rewrite IH, lookup_insert_ne.
Qed.

Lemma init_user_agent (h : Headers) :
  headers_update INIT_HEADERS h !! lower (py "User-Agent")
    = Some (py "User-Agent", INIT_USER_AGENT).
Proof.
  unfold INIT_HEADERS.
  change (headers_update (?kv :: ?items) h) with
    (headers_update items (<[lower kv.1 := kv]> h)).
  rewrite headers_update_other; [apply lookup_insert_eq|].
  repeat constructor; simpl; vm_compute; discriminate.
Qed.

Lemma retry_user_agent (h : Headers) :
  headers_update RETRY_HEADERS h !! lower (py "User-Agent")
    = Some (py "User-Agent", RETRY_USER_AGENT).
Proof. unfold RETRY_HEADERS, headers_update. simpl. apply lookup_insert_eq. Qed.

Lemma init_accept_language (h : Headers) :
  headers_update INIT_HEADERS h !! lower (py "Accept-Language")
    = Some (py "Accept-Language", py "en-US,en;q=0.5").
Proof.
  unfold INIT_HEADERS.
  change (headers_update (?a :: ?b :: ?kv :: ?items) h) with
    (headers_update items
       (<[lower kv.1 := kv]> (<[lower b.1 := b]> (<[lower a.1 := a]> h)))).
  rewrite headers_update_other; [apply lookup_insert_eq|].
  repeat constructor; simpl; vm_compute; discriminate.
Qed.

Lemma retry_accept_language (h : Headers) :
  headers_update RETRY_HEADERS h !! lower (py "Accept-Language")
    = h !! lower (py "Accept-Language").
Proof.
  apply headers_update_other. repeat constructor; simpl; vm_compute; discriminate.
Qed.

(** C8, on the code. After an attempt that raised, the client holds a new
    session with an empty cookie jar, and its URL and timeout are as
    before; but the headers of that session are the library's defaults
    with a single [User-Agent] of another, shorter value than the one
    [__init__] sets, and without the other headers of [__init__]: they are
    never the headers of a client as constructed. *)
Theorem session_after_failed_attempt (username password e : str) (w : World) :
  (_do_login transport username password w).1 = inl e →
  let w' := world_before default_headers transport username password 1 w in
  cookies (session (self w')) = ∅ ∧
  panel_url (self w') = panel_url (self w) ∧
  timeout (self w') = timeout (self w) ∧
  headers (session (self w'))
    = <[lower (py "User-Agent") := (py "User-Agent", RETRY_USER_AGENT)]>
        default_headers ∧
  RETRY_USER_AGENT ≠ INIT_USER_AGENT ∧
  headers (session (self w')) !! lower (py "Accept-Language")
    = default_headers !! lower (py "Accept-Language") ∧
  ∀ url tmo,
    headers (session (__init__ default_headers url tmo))
      !! lower (py "Accept-Language")
      = Some (py "Accept-Language", py "en-US,en;q=0.5") ∧
    headers (session (self w')) ≠
    headers (session (__init__ default_headers url tmo)).
Proof.
  intros _ w'. subst w'.
  change (world_before default_headers transport username password 1 w) with
    (reset_session default_headers (_do_login transport username password w).2).
  destruct (_do_login_frame transport username password w) as [Hp Ht].
  unfold reset_session, set_session, new_session.
  cbn [self session headers cookies panel_url timeout].
  split_and!.
  - reflexivity.
  - exact Hp.
  - exact Ht.
  - unfold headers_update, RETRY_HEADERS. cbn [foldl fst]. reflexivity.
  - vm_compute. discriminate.
  - apply retry_accept_language.
  - intros url tmo. unfold __init__, new_session.
    cbn [self session headers cookies panel_url timeout].
    split; [apply init_accept_language|].
    intros Heq.
    apply (f_equal (λ h : Headers, h !! lower (py "User-Agent"))) in Heq.
    rewrite retry_user_agent, init_user_agent in Heq.
    injection Heq as Heq. vm_compute in Heq. discriminate Heq.
Qed.

End SessionReset.

Lemma session_after_failed_attempt_witness :
  let w' := world_before ∅ transport_post_fails alice secret 1 example_world in
  (_do_login transport_post_fails alice secret example_world).1
    = inl (py "Read timed out.") ∧
  headers (session (self example_world)) !! py "user-agent"
    = Some (py "User-Agent", INIT_USER_AGENT) ∧
  headers (session (self w')) !! py "user-agent"
    = Some (py "User-Agent", RETRY_USER_AGENT) ∧
  headers (session (self w')) !! py "accept-language" = None ∧
  headers (session (self w')) ≠ headers (session (self example_world)).
Proof.
  intros w'.
  assert (Hraise : (_do_login transport_post_fails alice secret example_world).1
                   = inl (py "Read timed out.")) by (vm_compute; reflexivity).
  pose proof (session_after_failed_attempt ∅ transport_post_fails alice secret _
                example_world Hraise) as H.
  cbv zeta in H. destruct H as (_ & _ & _ & Hh & _ & Hal & Hinit).
  split_and!; [exact Hraise|vm_compute; reflexivity| | |].
  - subst w'. rewrite Hh. vm_compute. reflexivity.
  - subst w'. change (py "accept-language") with (lower (py "Accept-Language")).
    rewrite Hal. reflexivity.
  - exact (proj2 (Hinit (py "https://panel12.serv00.com/") 30%Z)).
Defined.

(** ** The session client on concrete transports *)

Lemma token_failure_returns_at_once_witness :
  let out := login ∅ transport_no_token alice secret 3 example_world in
  (get_csrf_token transport_no_token example_world).1 = None ∧
  status out.1 = NETWORK_ERROR ∧ details out.1 = None ∧
  length (sent out.2) = 1%nat.
Proof.
  intros out.
  assert (Htok : (get_csrf_token transport_no_token example_world).1 = None)
    by (vm_compute; reflexivity).
  pose proof (token_failure_returns_at_once ∅ transport_no_token alice secret 3
                example_world ltac:(lia) Htok) as H.
  cbv zeta in H. destruct H as (_ & Hs & Hd & _ & Hsent).
  split_and!; [exact Htok|exact Hs|exact Hd|].
  subst out. rewrite Hsent. reflexivity.
Defined.

Lemma nonpositive_retry_count_sends_nothing_witness :
  let out := login ∅ transport_post_fails alice secret (-2) example_world in
  status out.1 = NETWORK_ERROR ∧ details out.1 = None ∧
  out.2 = example_world ∧ sent out.2 = [].
Proof.
  intros out.
  exact (nonpositive_retry_count_sends_nothing ∅ transport_post_fails alice
           secret (-2) example_world ltac:(lia)).
Defined.

Lemma login_retry_outcomes_witness :
  login ∅ transport_post_fails alice secret 2 example_world =
    (mkLoginResult NETWORK_ERROR (py "网络错误 (重试 2 次后失败)")
       (py "https://panel12.serv00.com") alice (Some (py "Read timed out.")),
     world_before ∅ transport_post_fails alice secret 2 example_world) ∧
  status (login ∅ (transport_flaky (py "<h1>Dashboard</h1>")) alice secret 3
            example_world).1 = ACTIVE ∧
  length (sent (login ∅ (transport_flaky (py "<h1>Dashboard</h1>")) alice secret 3
                  example_world).2) = 6%nat.
Proof.
  split; [|split].
  - destruct (login_retry_outcomes ∅ transport_post_fails alice secret 2
                example_world ltac:(lia)) as [Hall _].
    destruct Hall as (e & He & Hlogin).
    { intros [|[|i]] Hi; [eexists; vm_compute; reflexivity..|]. simpl in Hi. lia. }
    vm_compute in He. injection He as <-. rewrite Hlogin. reflexivity.
  - destruct (login_retry_outcomes ∅ (transport_flaky (py "<h1>Dashboard</h1>"))
                alice secret 3 example_world ltac:(lia)) as [_ Hret].
    edestruct (Hret 2%nat) as [Hlogin _].
    + simpl. lia.
    + intros [|[|i]] Hi; [eexists; vm_compute; reflexivity..|lia].
    + vm_compute. reflexivity.
    + rewrite Hlogin. reflexivity.
  - vm_compute. reflexivity.
Defined.

(** The claim as written fails twice: the message of the final result is
    not the English sentence, and an attempt that returns because the
    token fetch failed returns a result no classification produces. *)
Lemma login_retry_outcomes_counterexample :
  let out := login ∅ transport_post_fails alice secret 1 example_world in
  let tok := _do_login transport_no_token alice secret example_world in
  (∃ e, attempt_raises ∅ transport_post_fails alice secret 0 example_world e) ∧
  status out.1 = NETWORK_ERROR ∧
  message out.1 ≠ py "network error after 1 retries" ∧
  (∃ result, tok.1 = inr result ∧
     login ∅ transport_no_token alice secret 3 example_world = (result, tok.2) ∧
     ∀ self response username,
       result ≠ _parse_login_result self response username).
Proof.
  intros out tok. split_and!.
  - eexists. vm_compute. reflexivity.
  - vm_compute. reflexivity.
  - vm_compute. discriminate.
  - eexists. split_and!; [vm_compute; reflexivity|vm_compute; reflexivity|].
    intros c r u H. apply (f_equal status) in H. revert H.
    unfold _parse_login_result.
    repeat (destruct (contains_any _ _)); discriminate.
Qed.

(** * Further properties of the client *)

(** ** The classifier, case by case *)

Section ClassifierCases.

Implicit Types (self : Serv00Client) (response : Response) (username : str).

Lemma has_keyword_iff (keywords : list str) (body : str) :
  contains_any keywords body = true ↔ has_keyword keywords body.
Proof. apply contains_any_spec. Qed.

(** X1. The status of a classification is decided by the three keyword
    lists in their order: [BANNED] exactly when a banned keyword occurs,
    [ACTIVE] exactly when none does and a success keyword occurs,
    [LOGIN_FAILED] exactly when neither does and a login-page keyword
    occurs, [UNKNOWN] exactly when no keyword occurs; it is never
    [NETWORK_ERROR]. *)
Theorem status_by_keywords self response username :
  let body := text response in
  let st := status (_parse_login_result self response username) in
  (st = BANNED ↔ has_keyword BANNED_KEYWORDS body) ∧
  (st = ACTIVE ↔
     ¬ has_keyword BANNED_KEYWORDS body ∧ has_keyword SUCCESS_KEYWORDS body) ∧
  (st = LOGIN_FAILED ↔
     ¬ has_keyword BANNED_KEYWORDS body ∧ ¬ has_keyword SUCCESS_KEYWORDS body ∧
     has_keyword LOGIN_PAGE_KEYWORDS body) ∧
  (st = UNKNOWN ↔
     ¬ has_keyword BANNED_KEYWORDS body ∧ ¬ has_keyword SUCCESS_KEYWORDS body ∧
     ¬ has_keyword LOGIN_PAGE_KEYWORDS body) ∧
  st ≠ NETWORK_ERROR.
Proof.
  intros body st. subst body st. unfold _parse_login_result.
  rewrite <- !has_keyword_iff.
  destruct (contains_any BANNED_KEYWORDS _);
    destruct (contains_any SUCCESS_KEYWORDS _);
    destruct (contains_any LOGIN_PAGE_KEYWORDS _); simpl;
    split_and!; (discriminate || (split; intros; (done || intuition congruence))).
Qed.

(** X2. A [LOGIN_FAILED] result always carries a non-empty detail, and
    which one is fixed: the text that [_extract_error_message] returns for
    the body (the stripped group of the leftmost match of the alert
    pattern) when that text is not empty, and the default message when the
    pattern does not match or the text is empty. *)
Theorem login_failed_detail_nonempty self response username :
  let result := _parse_login_result self response username in
  status result = LOGIN_FAILED →
  (∀ gs, search ERROR_MESSAGE_PATTERN (text response) = Some gs →
         strip (group1 gs) ≠ [] →
         details result = Some (strip (group1 gs))) ∧
  (∀ gs, search ERROR_MESSAGE_PATTERN (text response) = Some gs →
         strip (group1 gs) = [] →
         details result = Some (py "用户名或密码错误")) ∧
  (search ERROR_MESSAGE_PATTERN (text response) = None →
   details result = Some (py "用户名或密码错误")) ∧
  ∃ d, details result = Some d ∧ d ≠ [].
Proof.
  intros result. subst result. unfold _parse_login_result.
  destruct (contains_any BANNED_KEYWORDS _); [done|].
  destruct (contains_any SUCCESS_KEYWORDS _); [done|].
  destruct (contains_any LOGIN_PAGE_KEYWORDS _); [|done].
  intros _. cbn [details]. unfold _extract_error_message.
  destruct (search ERROR_MESSAGE_PATTERN (text response)) as [gs|] eqn:E.
  - destruct (strip (group1 gs)) as [|c m] eqn:Em; cbn [truthy].
    + split_and!.
      * intros gs' [= <-]. by rewrite Em.
      * intros gs' [= <-] _. done.
      * done.
      * eexists. split; [done|]. vm_compute. discriminate.
    + split_and!.
      * intros gs' [= <-] _. by rewrite Em.
      * intros gs' [= <-]. by rewrite Em.
      * done.
      * by eexists.
  - cbn [truthy]. split_and!; [done..|].
    eexists. split; [done|]. vm_compute. discriminate.
Qed.

(** The error pattern needs the word [alert] in the body. *)
Lemma error_pattern_needs_alert (content : str) :
  ¬ occurs (py "alert") content → _extract_error_message content = None.
Proof.
  intros Hno. unfold _extract_error_message.
  assert (search ERROR_MESSAGE_PATTERN content = None) as ->; [|done].
  apply search_None_iff. intros (pre & suf & gs & -> & Hm). apply Hno.
  unfold ERROR_MESSAGE_PATTERN in Hm. cbn [Matches] in Hm.
  destruct Hm as (s1 & -> & r1 & s2 & -> & _ & _ & s3 & -> & _).
  exists (pre ++ (py "class=" ++ [dq]) ++ r1), s3. by rewrite <- !app_assoc.
Qed.

(** X3. When the word [alert] occurs nowhere in the body of a response
    classified [LOGIN_FAILED], the detail is the default message. *)
Theorem login_failed_default_detail self response username :
  let result := _parse_login_result self response username in
  status result = LOGIN_FAILED →
  ¬ occurs (py "alert") (text response) →
  details result = Some (py "用户名或密码错误").
Proof.
  intros result. subst result. unfold _parse_login_result.
  destruct (contains_any BANNED_KEYWORDS _); [done|].
  destruct (contains_any SUCCESS_KEYWORDS _); [done|].
  destruct (contains_any LOGIN_PAGE_KEYWORDS _); [|done].
  intros _ Hno. simpl. by rewrite (error_pattern_needs_alert _ Hno).
Qed.

End ClassifierCases.

Lemma login_failed_detail_nonempty_witness :
  let response :=
    mkResponse 200
      (py "<h1>Login</h1><div class=" ++ [dq] ++ py "alert alert-danger" ++ [dq] ++
       py "> Bad password </div>")
      (py "https://panel12.serv00.com/login/") [] in
  let result := _parse_login_result example_client response alice in
  status result = LOGIN_FAILED ∧
  search ERROR_MESSAGE_PATTERN (text response) = Some [py " Bad password "] ∧
  details result = Some (py "Bad password").
Proof.
  intros response result.
  assert (Hs : status result = LOGIN_FAILED) by (vm_compute; reflexivity).
  assert (Hm : search ERROR_MESSAGE_PATTERN (text response)
               = Some [py " Bad password "]) by (vm_compute; reflexivity).
  split_and!; [exact Hs|exact Hm|].
  destruct (login_failed_detail_nonempty example_client response alice Hs)
    as (Hd & _).
  etrans; [apply (Hd _ Hm); vm_compute; discriminate|vm_compute; reflexivity].
Defined.

Lemma login_failed_default_detail_witness :
  let response :=
    mkResponse 200 (py "<h1>Sign in</h1><form></form>")
      (py "https://panel12.serv00.com/login/") [] in
  let result := _parse_login_result example_client response alice in
  status result = LOGIN_FAILED ∧ details result = Some (py "用户名或密码错误").
Proof.
  intros response result.
  assert (Hs : status result = LOGIN_FAILED) by (vm_compute; reflexivity).
  split; [exact Hs|].
  apply (login_failed_default_detail example_client response alice Hs).
  apply contains_false. vm_compute. reflexivity.
Defined.

(** ** What the extracted texts look like *)

Section StripFacts.

Lemma lstrip_split (s : str) :
  ∃ pre, s = pre ++ lstrip s ∧ all_in is_space pre.
Proof.
  unfold all_in. induction s as [|c s (pre & IH & Hpre)]; simpl.
  - exists []. by split; [|constructor].
  - destruct (is_space c) eqn:E.
    + exists (c :: pre). split; [by rewrite IH at 1|by constructor].
    + exists []. by split; [|constructor].
Qed.

Lemma lstrip_head (s : str) (c : N) (t : str) :
  lstrip s = c :: t → is_space c = false.
Proof.
  induction s as [|a s IH]; simpl; [done|].
  destruct (is_space a) eqn:E; [done|]. by intros [= <- _].
Qed.

Lemma rstrip_split (s : str) :
  ∃ post, s = rstrip s ++ post ∧ all_in is_space post.
Proof.
  unfold rstrip. destruct (lstrip_split (rev s)) as (pre & Hs & Hpre).
  exists (rev pre). split.
  - rewrite <- rev_app_distr, <- Hs. by rewrite rev_involutive.
  - unfold all_in in *. by apply Forall_rev in Hpre.
Qed.

Lemma rstrip_last (s t : str) (c : N) :
  rstrip s = t ++ [c] → is_space c = false.
Proof.
  unfold rstrip. intros H. apply (f_equal (@rev N)) in H.
  rewrite rev_involutive, rev_app_distr in H. simpl in H.
  by apply lstrip_head in H.
Qed.

(** [strip] keeps a piece of its argument, cut between white space, that
    neither starts nor ends with white space. *)
Lemma strip_spec (s : str) :
  (∃ pre post, s = pre ++ strip s ++ post ∧
               all_in is_space pre ∧ all_in is_space post) ∧
  (∀ c t, strip s = c :: t → is_space c = false) ∧
  (∀ t c, strip s = t ++ [c] → is_space c = false).
Proof.
  unfold strip. split_and!.
  - destruct (rstrip_split s) as (post & Hs & Hpost).
    destruct (lstrip_split (rstrip s)) as (pre & Hr & Hpre).
    exists pre, post. split_and!; [|done..].
    transitivity (rstrip s ++ post); [exact Hs|].
    by rewrite app_assoc, <- Hr.
  - intros c t. apply lstrip_head.
  - intros t c H.
    destruct (lstrip_split (rstrip s)) as (pre & Hr & _). rewrite H in Hr.
    rewrite app_assoc in Hr. by apply rstrip_last in Hr.
Qed.

Lemma strip_clean (g : str) :
  all_in (not_in [lt_sign; newline]) g → clean_text (strip g).
Proof.
  intros Hg. destruct (strip_spec g) as ((pre & post & Hs & _ & _) & Hh & Hl).
  split_and!; [|done..].
  unfold all_in in *. rewrite Hs in Hg.
  by apply Forall_app in Hg as [_ [Hg _]%Forall_app].
Qed.

(** What the two label patterns capture. *)
Lemma label_group (label content : str) (gs : list str) :
  search [Lit label; Rep colon_or_space 0; Cap (not_in [lt_sign; newline]) 1]
    content = Some gs →
  all_in (not_in [lt_sign; newline]) (group1 gs).
Proof.
  intros (pre & suf & _ & Hm%match_here_sound & _)%search_Some.
  cbn [Matches] in Hm.
  by destruct Hm as (s1 & _ & sep & s2 & _ & _ & _ & txt & post & gs' & _ & Htxt & _ & -> & _).
Qed.

End StripFacts.

Section CleanDetails.

Implicit Types (self : Serv00Client) (response : Response) (username : str).

(** X4. A [BANNED] result always carries a detail: the default reason, or
    a text cut out of the page that holds no [<] and no newline and has no
    white space at either end. *)
Theorem banned_detail_is_clean self response username :
  let result := _parse_login_result self response username in
  status result = BANNED →
  ∃ d, details result = Some d ∧ (d = py "TOS 违规" ∨ clean_text d).
Proof.
  intros result. subst result. unfold _parse_login_result.
  destruct (contains_any BANNED_KEYWORDS _).
  - intros _. simpl. unfold _extract_ban_reason.
    destruct (search BAN_REASON_PATTERN _) as [gs|] eqn:E.
    + eexists. split; [done|]. right. by apply label_group, strip_clean in E.
    + eexists. split; [done|]. by left.
  - destruct (contains_any SUCCESS_KEYWORDS _); [done|].
    by destruct (contains_any LOGIN_PAGE_KEYWORDS _).
Qed.

(** X5. The detail of an [ACTIVE] result is absent or is the validity
    label followed by a text that holds no [<] and no newline and has no
    white space at either end. *)
Theorem active_detail_is_labelled self response username :
  let result := _parse_login_result self response username in
  status result = ACTIVE →
  details result = None ∨
  ∃ t, details result = Some (py "有效期至: " ++ t) ∧ clean_text t.
Proof.
  intros result. subst result. unfold _parse_login_result.
  destruct (contains_any BANNED_KEYWORDS _); [done|].
  destruct (contains_any SUCCESS_KEYWORDS _).
  - intros _. simpl. unfold _extract_account_validity.
    destruct (search VALIDITY_PATTERN _) as [gs|] eqn:E; [|by left].
    right. eexists. split; [done|]. by apply label_group, strip_clean in E.
  - by destruct (contains_any LOGIN_PAGE_KEYWORDS _).
Qed.

End CleanDetails.

Lemma banned_detail_is_clean_witness :
  let response :=
    mkResponse 200 (py "<b>Konto zablokowane:   abuse of service  <br></b>")
      (py "https://panel12.serv00.com/") [] in
  let result := _parse_login_result example_client response alice in
  status result = BANNED ∧ details result = Some (py "abuse of service") ∧
  ∃ d, details result = Some d ∧ (d = py "TOS 违规" ∨ clean_text d).
Proof.
  intros response result.
  assert (Hs : status result = BANNED) by (vm_compute; reflexivity).
  split_and!; [exact Hs|vm_compute; reflexivity|].
  exact (banned_detail_is_clean example_client response alice Hs).
Defined.

Lemma active_detail_is_labelled_witness :
  let response :=
    mkResponse 200 (py "Zalogowany jako alice. Konto ważne do:  2 stycznia 2036 </td>")
      (py "https://panel12.serv00.com/") [] in
  let result := _parse_login_result example_client response alice in
  status result = ACTIVE ∧
  details result = Some (py "有效期至: 2 stycznia 2036") ∧
  (details result = None ∨
   ∃ t, details result = Some (py "有效期至: " ++ t) ∧ clean_text t).
Proof.
  intros response result.
  assert (Hs : status result = ACTIVE) by (vm_compute; reflexivity).
  split_and!; [exact Hs|vm_compute; reflexivity|].
  exact (active_detail_is_labelled example_client response alice Hs).
Defined.

(** ** The requests of the client *)

Section ClientRequests.

Variable default_headers : Headers.
Variable transport : list Request → Request → Outcome.

Local Abbreviation get_csrf_token := (get_csrf_token transport).
Local Abbreviation _do_login := (_do_login transport).
Local Abbreviation login := (login default_headers transport).
Local Abbreviation login_loop := (login_loop default_headers transport).
Local Abbreviation reset_session := (reset_session default_headers).

Implicit Types (w : World) (username password tok : str).

(** The group of the token pattern takes at least one character. *)
Lemma get_csrf_token_nonempty w tok :
  (get_csrf_token w).1 = Some tok → tok ≠ [].
Proof.
  rewrite get_csrf_token_unfold.
  destruct (transport _ _) as [e|response]; [done|].
  destruct (raise_for_status response); [done|].
  destruct (search CSRF_PATTERN (text response)) as [gs|] eqn:E; [|done].
  apply search_Some in E as (pre & suf & _ & Hm%match_here_sound & _).
  apply csrf_matches_iff in Hm as (ws & t & post & _ & _ & _ & Ht & _ & ->).
  by intros [= <-].
Qed.

(** X6. A token that [get_csrf_token] returns is not empty, holds no
    double quote, and is the token of a token field of the page that the
    GET returned. *)
Theorem token_comes_from_page w tok :
  (get_csrf_token w).1 = Some tok →
  tok ≠ [] ∧ all_in (not_in [dq]) tok ∧
  ∃ response pre ws,
    transport (sent w) (token_request (self w)) = Returns response ∧
    raise_for_status response = false ∧
    token_field_at (text response) pre ws tok.
Proof.
  rewrite get_csrf_token_unfold.
  destruct (transport _ _) as [e|response]; [done|].
  destruct (raise_for_status response) eqn:Ers; [done|].
  destruct (search CSRF_PATTERN (text response)) as [gs|] eqn:E; [|done].
  apply search_Some in E as (pre & suf & Hbody & Hm%match_here_sound & _).
  apply csrf_matches_iff in Hm as (ws & t & post & -> & Hws & Hsp & Ht & Hq & ->).
  simpl. intros [= <-]. split_and!; [done..|].
  exists response, pre, ws. split; [done|]. split; [done|].
  unfold token_field_at. split; [by exists post|done].
Qed.

Lemma send_headers (req : Request) w :
  headers (session (self (send transport req w).2)) = headers (session (self w)).
Proof. unfold send. simpl. by destruct (transport (sent w) req). Qed.

Lemma get_csrf_token_headers w :
  headers (session (self (get_csrf_token w).2)) = headers (session (self w)).
Proof.
  unfold Serv00.get_csrf_token, session_get.
  match goal with |- context [send _ ?r _] => pose proof (send_headers r w) as Hs end.
  destruct (send _ _ _) as [o w'] eqn:E. simpl in Hs.
  destruct o as [e|response]; [done|].
  destruct (raise_for_status response); [done|].
  by destruct (search _ _).
Qed.

(** What [_do_login] adds to the log of requests: the GET alone when no
    token came back, the GET and the POST otherwise. *)
Lemma _do_login_sent username password w :
  let out := _do_login username password w in
  match (get_csrf_token w).1 with
  | None =>
      sent out.2 = sent w ++ [token_request (self w)] ∧
      out.2 = (get_csrf_token w).2
  | Some tok =>
      ∃ post,
        sent out.2 = sent w ++ [token_request (self w); post] ∧
        post = mkRequest POST (login_url (self w))
                 (headers_update
                    [ (py "Referer", login_url (self w));
                      (py "Origin", panel_url (self w));
                      (py "Content-Type", py "application/x-www-form-urlencoded") ]
                    (headers (session (self w))))
                 (cookies (session (self (get_csrf_token w).2)))
                 (login_form tok username password) true (timeout (self w)) ∧
        headers (session (self out.2)) = headers (session (self w))
  end.
Proof.
  intros out. subst out.
  pose proof (get_csrf_token_frame transport w) as (Hp & Ht & Hs).
  pose proof (get_csrf_token_headers w) as Hh.
  destruct ((get_csrf_token w).1) as [tok|] eqn:Etok.
  - pose proof (get_csrf_token_nonempty w tok Etok) as Hne.
    unfold Serv00._do_login.
    destruct (get_csrf_token w) as [tok' w1]. simpl in *. subst tok'.
    destruct tok as [|c tok]; [done|]. simpl.
    unfold session_post, send, login_url. simpl. rewrite Hp, Ht, Hh, Hs.
    eexists. split_and!.
    + destruct (transport _ _); simpl; by rewrite <- app_assoc.
    + reflexivity.
    + by destruct (transport _ _).
  - rewrite (_do_login_no_token transport username password w Etok). simpl.
    by split.
Qed.

(** X7. When a token came back, the POST that follows carries it, with the
    user name and the password, in the form; it goes to the login URL with
    the [Referer] and [Origin] of the panel, and with the cookies the
    session holds after the GET. *)
Theorem post_carries_token username password w tok :
  (get_csrf_token w).1 = Some tok →
  ∃ post,
    sent (_do_login username password w).2
      = sent w ++ [token_request (self w); post] ∧
    method post = POST ∧ req_url post = panel_url (self w) ++ py "/login/" ∧
    req_data post =
      [ (py "csrfmiddlewaretoken", tok); (py "username", username);
        (py "password", password); (py "next", py "/") ] ∧
    req_headers post !! lower (py "Referer")
      = Some (py "Referer", panel_url (self w) ++ py "/login/") ∧
    req_headers post !! lower (py "Origin")
      = Some (py "Origin", panel_url (self w)) ∧
    req_cookies post = cookies (session (self (get_csrf_token w).2)).
Proof.
  intros Htok. pose proof (_do_login_sent username password w) as H.
  cbv zeta in H. rewrite Htok in H. destruct H as (post & Hs & -> & _).
  eexists. split; [exact Hs|]. cbn [method req_url req_data req_headers req_cookies].
  split_and!; try reflexivity.
  - unfold headers_update. cbn [foldl fst].
    rewrite !lookup_insert_ne by (vm_compute; discriminate).
    apply lookup_insert_eq.
  - unfold headers_update. cbn [foldl fst].
    rewrite lookup_insert_ne by (vm_compute; discriminate).
    apply lookup_insert_eq.
Qed.

Lemma to_login_page_same (c c' : Serv00Client) (req : Request) :
  panel_url c = panel_url c' → timeout c = timeout c' →
  to_login_page c req → to_login_page c' req.
Proof. unfold to_login_page, login_url. by intros -> ->. Qed.

Lemma alternates_app (a b : list Request) :
  Nat.even (length a) = true → alternates a → alternates b →
  alternates (a ++ b).
Proof.
  intros Hev Ha Hb i req Hi.
  destruct (decide (i < length a)%nat) as [Hlt|Hge].
  - rewrite lookup_app_l in Hi by done. by apply Ha.
  - rewrite lookup_app_r in Hi by lia. specialize (Hb _ _ Hi).
    assert (Nat.even i = Nat.even (i - length a)) as ->; [|done].
    replace i with ((i - length a) + length a)%nat at 1 by lia.
    rewrite Nat.even_add, Hev.
    by destruct (Nat.even (i - length a)).
Qed.

(** The requests of one attempt. *)
Lemma _do_login_log username password w :
  let out := _do_login username password w in
  ∃ added,
    sent out.2 = sent w ++ added ∧
    Forall (to_login_page (self w)) added ∧ alternates added ∧
    (length added ≤ 2)%nat ∧
    (∀ e, out.1 = inl e → length added = 2%nat).
Proof.
  intros out. subst out.
  pose proof (_do_login_sent username password w) as H. cbv zeta in H.
  destruct ((get_csrf_token w).1) as [tok|] eqn:Etok.
  - destruct H as (post & Hs & -> & _). eexists. split; [exact Hs|].
    split_and!; [|intros [|[|i]] req; simpl; intros [= <-]; by simpl|simpl; lia|done].
    by repeat constructor.
  - destruct H as [Hs Hw]. eexists. split; [exact Hs|].
    split_and!; [by repeat constructor| |simpl; lia|].
    + intros [|i] req; simpl; intros [= <-]. by simpl.
    + intros e. by rewrite (_do_login_no_token transport username password w Etok).
Qed.

Lemma login_loop_log username password rc n last w :
  ∃ added,
    sent (login_loop rc n username password last w).2 = sent w ++ added ∧
    Forall (to_login_page (self w)) added ∧ alternates added ∧
    (length added ≤ 2 * n)%nat.
Proof.
  revert last w. induction n as [|n IH]; intros last w.
  - exists []. simpl. rewrite app_nil_r. split_and!; [done|done| |done].
    by intros i req.
  - cbn [Serv00.login_loop].
    destruct (_do_login_log username password w) as (a & Hs & Hall & Halt & Hlen & Hraise).
    destruct (_do_login_frame transport username password w) as [Hp Ht].
    destruct (_do_login username password w) as [[e|r] w'] eqn:E; simpl in *.
    + specialize (Hraise e eq_refl).
      destruct (IH (Some e) (reset_session w')) as (b & Hs' & Hall' & Halt' & Hlen').
      exists (a ++ b). simpl in Hs'. rewrite Hs', Hs, app_assoc.
      split_and!; [done| | |rewrite length_app; lia].
      * apply Forall_app. split; [done|].
        eapply Forall_impl; [exact Hall'|]. intros req.
        by apply to_login_page_same.
      * apply alternates_app; [by rewrite Hraise|done..].
    + exists a. split_and!; [done..|lia].
Qed.

(** X8. [login] only adds to the log of requests, at most two requests
    for each of the [retry_count] attempts, and nothing for a negative
    count. *)
Theorem login_request_budget username password (retry_count : Z) w :
  let out := login username password retry_count w in
  ∃ added,
    sent out.2 = sent w ++ added ∧
    (Z.of_nat (length added) ≤ 2 * Z.max 0 retry_count)%Z.
Proof.
  intros out. subst out. unfold Serv00.login.
  destruct (login_loop_log username password retry_count (Z.to_nat retry_count)
              None w) as (added & Hs & _ & _ & Hlen).
  exists added. split; [done|]. lia.
Qed.

(** X9. Every request [login] sends goes to the login URL of the client,
    with the client's timeout and following redirects; the requests are
    GET, POST, GET, POST, ... in this order, and the GETs carry no form
    data, so that credentials travel in POSTs only. *)
Theorem login_request_shape username password (retry_count : Z) w :
  let out := login username password retry_count w in
  ∃ added,
    sent out.2 = sent w ++ added ∧
    Forall (to_login_page (self w)) added ∧ alternates added.
Proof.
  intros out. subst out. unfold Serv00.login.
  destruct (login_loop_log username password retry_count (Z.to_nat retry_count)
              None w) as (added & Hs & Hall & Halt & _).
  by exists added.
Qed.

End ClientRequests.

(** ** What [login] keeps *)

Section ClientFrame.

Variable default_headers : Headers.
Variable transport : list Request → Request → Outcome.

Local Abbreviation _do_login := (_do_login transport).
Local Abbreviation login := (login default_headers transport).
Local Abbreviation login_loop := (login_loop default_headers transport).
Local Abbreviation reset_session := (reset_session default_headers).

Implicit Types (w : World) (username password : str).

Lemma _parse_login_result_identity (c : Serv00Client) (response : Response)
    username :
  Serv00.username (_parse_login_result c response username) = username ∧
  result_panel_url (_parse_login_result c response username) = panel_url c.
Proof.
  unfold _parse_login_result.
  destruct (contains_any BANNED_KEYWORDS _); [done|].
  destruct (contains_any SUCCESS_KEYWORDS _); [done|].
  by destruct (contains_any LOGIN_PAGE_KEYWORDS _).
Qed.

Lemma _do_login_identity username password w (result : LoginResult) :
  (_do_login username password w).1 = inr result →
  Serv00.username result = username ∧ result_panel_url result = panel_url (self w).
Proof.
  intros H. destruct (_do_login_frame transport username password w) as [Hp _].
  apply _do_login_returns in H as [[_ ->]|(hist & req & response & _ & _ & ->)];
    [done|].
  destruct (_parse_login_result_identity
              (self (_do_login username password w).2) response username)
    as [-> ->].
  done.
Qed.

Lemma login_loop_keeps username password rc n last w :
  let out := login_loop rc n username password last w in
  (Serv00.username out.1 = username ∧
   result_panel_url out.1 = panel_url (self w)) ∧
  (panel_url (self out.2) = panel_url (self w) ∧
   timeout (self out.2) = timeout (self w)) ∧
  (headers (session (self out.2)) = headers (session (self w)) ∨
   headers (session (self out.2)) = headers_update RETRY_HEADERS default_headers).
Proof.
  revert last w. induction n as [|n IH]; intros last w; cbn [Serv00.login_loop].
  - simpl. split_and!; try done. by left.
  - pose proof (_do_login_identity username password w) as Hid.
    destruct (_do_login_frame transport username password w) as [Hp Ht].
    pose proof (_do_login_sent transport username password w) as Hs.
    cbv zeta in Hs.
    destruct (_do_login username password w) as [[e|r] w'] eqn:E; simpl in *.
    + destruct (IH (Some e) (reset_session w')) as ((Hu & Hr) & (Hp' & Ht') & Hh).
      simpl in *. split_and!; [done|congruence|congruence|congruence|].
      right. by destruct Hh as [->| ->].
    + destruct (Hid r eq_refl) as [Hu Hr]. split_and!; try done.
      left. destruct (Serv00.get_csrf_token transport w).1.
      * by destruct Hs as (post & _ & _ & Hh).
      * destruct Hs as [_ ->]. apply get_csrf_token_headers.
Qed.

(** X10. Whatever the network does, the result of [login] names the user
    it was called for and the panel URL of the client. *)
Theorem login_result_identity username password (retry_count : Z) w :
  let result := (login username password retry_count w).1 in
  Serv00.username result = username ∧
  result_panel_url result = panel_url (self w).
Proof.
  intros result. subst result. unfold Serv00.login.
  apply (login_loop_keeps username password retry_count (Z.to_nat retry_count)
           None w).
Qed.

(** X11. [login] never changes the URL and the timeout of the client, and
    the headers of its session afterwards are either the ones it had or
    the ones of a session rebuilt for a retry. *)
Theorem login_keeps_client username password (retry_count : Z) w :
  let w' := (login username password retry_count w).2 in
  panel_url (self w') = panel_url (self w) ∧
  timeout (self w') = timeout (self w) ∧
  (headers (session (self w')) = headers (session (self w)) ∨
   headers (session (self w')) =
     <[lower (py "User-Agent") := (py "User-Agent", RETRY_USER_AGENT)]>
       default_headers).
Proof.
  intros w'. subst w'. unfold Serv00.login.
  destruct (login_loop_keeps username password retry_count
              (Z.to_nat retry_count) None w) as (_ & (Hp & Ht) & Hh).
  split_and!; [done..|]. exact Hh.
Qed.

End ClientFrame.

(** ** The URL of the client *)

Section PanelUrl.

Lemma lstrip_char_split (ch : N) (s : str) :
  ∃ k, s = replicate k ch ++ lstrip_char ch s ∧
       ∀ t, lstrip_char ch s ≠ ch :: t.
Proof.
  induction s as [|c s (k & IH & Hhd)]; simpl.
  - by exists 0%nat.
  - destruct (N.eqb_spec c ch) as [->|Hne].
    + exists (S k). simpl. split; [by rewrite <- IH|done].
    + exists 0%nat. split; [done|]. intros t [= ? _]. done.
Qed.

(** X12. The constructor drops every trailing slash of the URL, and
    nothing else: the URL given is the client's URL followed by slashes,
    and the client's URL does not end with a slash; the login URL is the
    client's URL followed by [/login/]. *)
Theorem init_drops_trailing_slashes (default_headers : Headers)
    (url : str) (tmo : Z) :
  let c := __init__ default_headers url tmo in
  (∃ k, url = panel_url c ++ replicate k slash) ∧
  (∀ t, panel_url c ≠ t ++ [slash]) ∧
  login_url c = panel_url c ++ py "/login/" ∧
  timeout c = tmo ∧ cookies (session c) = ∅.
Proof.
  intros c. subst c. unfold __init__, rstrip_char, new_session.
  cbn [panel_url timeout session cookies].
  destruct (lstrip_char_split slash (rev url)) as (k & Hs & Hhd).
  split_and!; try done.
  - exists k. apply (f_equal (@rev N)) in Hs.
    rewrite rev_involutive, rev_app_distr in Hs.
    etrans; [exact Hs|]. f_equal. clear. induction k as [|k IH]; [done|].
    simpl. by rewrite IH, replicate_cons_app.
  - intros t Ht. apply (f_equal (@rev N)) in Ht.
    rewrite rev_involutive, rev_app_distr in Ht. simpl in Ht. by eapply Hhd.
Qed.

End PanelUrl.

(** * Properties of [main.py] and [logger.py] *)

(** ** Splitting and the panel name *)

Section SplitFacts.

Implicit Types (sep s cur a b : str).

Lemma split_go_skip sep (t b cur : str) :
  split_go sep (t ++ b) cur (length t) = split_go sep b cur 0.
Proof. induction t as [|c t IH]; [done|]. simpl. exact IH. Qed.

Lemma none_before_tail sep (c : N) s (n : nat) :
  none_before sep (c :: s) (S n) → none_before sep s n.
Proof.
  intros H pre post Hs. specialize (H (c :: pre) post). simpl in H.
  rewrite Hs in H. specialize (H eq_refl). lia.
Qed.

(** Where the separator does not start, the characters go to the piece
    being read. *)
Lemma split_go_no_occurrence sep a (rest cur : str) :
  none_before sep (a ++ rest) (length a) →
  split_go sep (a ++ rest) cur 0 = split_go sep rest (rev a ++ cur) 0.
Proof.
  revert cur. induction a as [|c a IH]; intros cur Hn; [done|].
  cbn [app split_go].
  destruct (startswith sep (c :: a ++ rest)) eqn:E.
  - apply startswith_inv in E. specialize (Hn [] _ E). simpl in Hn. lia.
  - rewrite IH by (by eapply none_before_tail). simpl. by rewrite <- app_assoc.
Qed.

(** [s.split(sep)] cuts at the first occurrence of [sep]. *)
Lemma split_first sep a b :
  sep ≠ [] → none_before sep (a ++ sep ++ b) (length a) →
  split sep (a ++ sep ++ b) = a :: split sep b.
Proof.
  intros Hsep Hn. unfold split. rewrite split_go_no_occurrence by done.
  destruct sep as [|c t]; [done|]. cbn [app split_go].
  change (c :: t ++ b) with ((c :: t) ++ b). rewrite startswith_app.
  rewrite app_nil_r, rev_involutive. f_equal.
  replace (length (c :: t) - 1)%nat with (length t) by (simpl; lia).
  apply split_go_skip.
Qed.

(** [s.split(sep)] is [[s]] when [sep] does not occur in [s]. *)
Lemma split_none sep s : ¬ occurs sep s → split sep s = [s].
Proof.
  intros Hno. unfold split.
  rewrite <- (app_nil_r s) at 1. rewrite split_go_no_occurrence.
  - simpl. by rewrite app_nil_r, rev_involutive.
  - intros pre post Hs. destruct Hno. exists pre, post.
    by rewrite app_nil_r in Hs.
Qed.

(** The first piece starts with what was read so far. *)
Lemma split_go_head sep s cur :
  ∃ h tl, split_go sep s cur 0 = (rev cur ++ h) :: tl.
Proof.
  revert cur. induction s as [|c s IH]; intros cur; cbn [split_go].
  - exists [], []. by rewrite app_nil_r.
  - destruct (startswith sep (c :: s)).
    + eexists [], _. by rewrite app_nil_r.
    + destruct (IH (c :: cur)) as (h & tl & ->). exists (c :: h), tl.
      simpl. by rewrite <- app_assoc.
Qed.

(** An occurrence has a first one. *)
Lemma first_occurrence_exists sep s :
  occurs sep s → ∃ a b, s = a ++ sep ++ b ∧ none_before sep s (length a).
Proof.
  induction s as [|c s IH]; intros Hocc.
  - destruct Hocc as ([|? ?] & post & Hs); [|done].
    exists [], post. split; [done|]. intros pre' post' _. simpl. lia.
  - destruct (startswith sep (c :: s)) eqn:E.
    + apply startswith_inv in E. exists [], (drop (length sep) (c :: s)).
      split; [done|]. intros pre' post' _. simpl. lia.
    + destruct IH as (a & b & Hs & Hn).
      { destruct Hocc as ([|c' pre] & post & Hs); simpl in Hs.
        - rewrite Hs, startswith_app in E. done.
        - injection Hs as _ Hs. by exists pre, post. }
      exists (c :: a), b. split; [by rewrite Hs at 1|].
      intros [|c' pre'] post' Hs'; simpl in Hs'.
      * rewrite Hs', startswith_app in E. done.
      * injection Hs' as _ Hs'. specialize (Hn _ _ Hs'). simpl. lia.
Qed.

(** A character that [a] lacks cannot start an occurrence inside [a]. *)
Lemma none_before_char (c : N) (t a rest : str) :
  c ∉ a → none_before (c :: t) (a ++ rest) (length a).
Proof.
  intros Hc pre post Hs.
  destruct (decide (length a ≤ length pre)%nat) as [|Hlt]; [done|exfalso].
  apply Hc. apply list_elem_of_lookup. exists (length pre).
  assert (H : (a ++ rest) !! length pre = Some c).
  { rewrite Hs. rewrite lookup_app_r by lia.
    by replace (length pre - length pre)%nat with 0%nat by lia. }
  rewrite lookup_app_l in H by lia. done.
Qed.

(** The first piece holds no separator. *)
Lemma split_head_clear sep s :
  sep ≠ [] → ∃ name tl, split sep s = name :: tl ∧ ¬ occurs sep name.
Proof.
  intros Hsep. destruct (contains sep s) eqn:E.
  - apply contains_spec in E.
    destruct (first_occurrence_exists _ _ E) as (a & b & Hs & Hn).
    rewrite Hs in Hn |- *. rewrite split_first by done.
    eexists _, _. split; [done|]. intros (p & q & ->).
    specialize (Hn p (q ++ sep ++ b)). rewrite <- !app_assoc in Hn.
    specialize (Hn eq_refl). rewrite !length_app in Hn.
    destruct sep; [done|]. simpl in Hn. lia.
  - apply contains_false in E. rewrite split_none by done. by eexists _, _.
Qed.

(** A string that holds the separator splits in two pieces at least. *)
Lemma split_second sep s :
  sep ≠ [] → occurs sep s → ∃ a h tl, split sep s = a :: h :: tl.
Proof.
  intros Hsep Hocc.
  destruct (first_occurrence_exists _ _ Hocc) as (a & b & Hs & Hn).
  rewrite Hs in Hn |- *. rewrite split_first by done.
  unfold split at 1. destruct (split_go_head sep b []) as (h & tl & ->).
  by eexists _, _, _.
Qed.

(** The index into the pieces is never out of range. *)
Lemma panel_id_total (panel_url : str) : ∃ name, panel_id panel_url = inr name.
Proof.
  unfold panel_id. destruct (contains (py "//") panel_url) eqn:E; [|by eexists].
  apply contains_spec in E.
  destruct (split_second (py "//") panel_url) as (a & h & tl & ->); [done..|].
  cbn [lookup list_lookup].
  destruct (split_head_clear (py ".") h) as (name & tl' & -> & _); [done|].
  by eexists.
Qed.

(** X13. The panel name is always defined (the index into the pieces is
    never out of range); it is the whole URL when the URL holds no [//],
    and it holds no dot otherwise. *)
Theorem panel_id_defined (panel_url : str) :
  ∃ name, panel_id panel_url = inr name ∧
    (¬ occurs (py "//") panel_url → name = panel_url) ∧
    (occurs (py "//") panel_url → ¬ occurs (py ".") name).
Proof.
  unfold panel_id. destruct (contains (py "//") panel_url) eqn:E.
  - apply contains_spec in E.
    destruct (split_second (py "//") panel_url) as (a & h & tl & ->); [done..|].
    cbn [lookup list_lookup].
    destruct (split_head_clear (py ".") h) as (name & tl' & -> & Hname); [done|].
    exists name. cbn [lookup list_lookup].
    split_and!; [done| |done]. intros Hno. by destruct Hno.
  - apply contains_false in E. exists panel_url. split_and!; [done..|].
    intros Hocc. by destruct E.
Qed.

(** X14. For a URL made of a scheme without slash, [//], a host name
    without slash and dot, then a dot and anything, the panel name is that
    host name. *)
Theorem panel_id_is_host (scheme host rest : str) :
  slash ∉ scheme → slash ∉ host → 46 ∉ host →
  panel_id (scheme ++ py "//" ++ host ++ py "." ++ rest) = inr host.
Proof.
  intros Hscheme Hhost Hdot. unfold panel_id.
  assert (contains (py "//") (scheme ++ py "//" ++ host ++ py "." ++ rest) = true)
    as -> by (apply contains_spec; by eexists _, _).
  rewrite split_first; [|done|by apply (none_before_char slash [slash])].
  cbn [lookup list_lookup].
  assert (Hn : none_before (py "//") ((host ++ py ".") ++ rest)
                 (length (host ++ py "."))).
  { apply (none_before_char slash [slash]). rewrite elem_of_app.
    intros [?|Hin]; [done|]. apply list_elem_of_singleton in Hin. done. }
  unfold split at 1. rewrite (app_assoc host).
  rewrite split_go_no_occurrence by done.
  destruct (split_go_head (py "//") rest (rev (host ++ py ".") ++ []))
    as (h & tl & ->).
  cbn [lookup list_lookup]. rewrite app_nil_r, rev_involutive, <- app_assoc.
  rewrite split_first; [done|done|by apply (none_before_char 46 [])].
Qed.

End SplitFacts.

Lemma panel_id_is_host_witness :
  panel_id (py "https://panel12.serv00.com") = inr (py "panel12").
Proof.
  apply (panel_id_is_host (py "https:") (py "panel12") (py "serv00.com"));
    intros H%list_elem_of_In; vm_compute in H; intuition discriminate.
Defined.

(** ** The shell command *)

Section ProgramFacts.

Variable default_headers : Headers.
Variable transport : list Request → Request → Outcome.
Variable shell : list str → str → ShellOutcome.

Local Abbreviation execute_shell_command := (execute_shell_command shell).
Local Abbreviation check_account :=
  (check_account default_headers transport shell).
Local Abbreviation check_accounts :=
  (check_accounts default_headers transport shell).
Local Abbreviation main_checks := (main_checks default_headers transport shell).
Local Abbreviation login := (login default_headers transport).

Implicit Types (fx : Effects) (account : Account) (settings : Settings).

(** The effects of [execute_shell_command]: no request, one command, and
    log records that start with the command at [INFO]. *)
Lemma execute_shell_command_effects (command : str) fx :
  let out := execute_shell_command command fx in
  net out.2 = net fx ∧ ran out.2 = ran fx ++ [command] ∧
  ∃ more,
    logged out.2 = logged fx ++ (INFO, py "执行自定义命令: " ++ command) :: more.
Proof.
  intros out. subst out. unfold Main.execute_shell_command, log_record.
  cbn [net logged ran].
  destruct (shell (ran fx) command) as [rc stdout stderr| |e].
  - destruct (rc =? 0)%Z.
    + destruct (truthy (Some (strip stdout))); cbn [fst snd net logged ran];
        (split_and!; [done..|]); eexists; by rewrite <- ?app_assoc.
    + destruct (truthy (Some (strip stderr))); cbn [fst snd net logged ran];
        (split_and!; [done..|]); eexists; by rewrite <- ?app_assoc.
  - cbn [fst snd net logged ran]. split_and!; [done..|].
    eexists. by rewrite <- ?app_assoc.
  - cbn [fst snd net logged ran]. split_and!; [done..|].
    eexists. by rewrite <- ?app_assoc.
Qed.


(** ** One account *)

(** An account lacks a required entry, and the check raises for the first
    one that is missing, or it has the three of them. *)
Lemma check_account_keys account settings fx :
  (∃ k, k ∈ REQUIRED_KEYS ∧ account !! k = None ∧
        check_account account settings fx = (inl (KeyError k), fx)) ∨
  (∃ url u p, account !! py "panel_url" = Some url ∧
              account !! py "username" = Some u ∧
              account !! py "password" = Some p).
Proof.
  unfold REQUIRED_KEYS, Main.check_account.
  destruct (account !! py "panel_url") as [url|] eqn:E1.
  2:{ left. exists (py "panel_url"). split_and!; [apply list_elem_of_here|done..]. }
  destruct (account !! py "username") as [u|] eqn:E2.
  2:{ left. exists (py "username").
      split_and!; [apply list_elem_of_further, list_elem_of_here|done..]. }
  destruct (account !! py "password") as [p|] eqn:E3.
  2:{ left. exists (py "password").
      split_and!; [do 2 apply list_elem_of_further; apply list_elem_of_here|done..]. }
  right. by exists url, u, p.
Qed.

Lemma required_key_present account (key url u p : str) :
  key ∈ REQUIRED_KEYS →
  account !! py "panel_url" = Some url →
  account !! py "username" = Some u →
  account !! py "password" = Some p →
  is_Some (account !! key).
Proof.
  unfold REQUIRED_KEYS. intros Hkey E1 E2 E3.
  apply elem_of_cons in Hkey as [->|Hkey]; [by eexists|].
  apply elem_of_cons in Hkey as [->|Hkey]; [by eexists|].
  apply list_elem_of_singleton in Hkey as ->. by eexists.
Qed.

(** X16. An account that lacks a required entry makes [check_account]
    raise the [KeyError] of the first missing one in the order
    [panel_url], [username], [password], before anything is logged, sent
    or run: without [panel_url] it is [panel_url] whatever else is
    missing; with [panel_url] and without [username] it is [username];
    with both and without [password] it is [password]. *)
Theorem check_account_missing_key account settings fx :
  (account !! py "panel_url" = None →
   check_account account settings fx = (inl (KeyError (py "panel_url")), fx)) ∧
  (∀ url, account !! py "panel_url" = Some url →
          account !! py "username" = None →
   check_account account settings fx = (inl (KeyError (py "username")), fx)) ∧
  (∀ url u, account !! py "panel_url" = Some url →
            account !! py "username" = Some u →
            account !! py "password" = None →
   check_account account settings fx = (inl (KeyError (py "password")), fx)) ∧
  (∀ key, key ∈ [py "panel_url"; py "username"; py "password"] →
          account !! key = None →
          ∃ k, check_account account settings fx = (inl (KeyError k), fx)).
Proof.
  split_and!.
  - intros E1. unfold Main.check_account. by rewrite E1.
  - intros url E1 E2. unfold Main.check_account. by rewrite E1, E2.
  - intros url u E1 E2 E3. unfold Main.check_account. by rewrite E1, E2, E3.
  - intros key Hkey Hnone.
    destruct (check_account_keys account settings fx)
      as [(k & Hk & Hknone & Hraise)|(url & u & p & E1 & E2 & E3)].
    + by exists k.
    + destruct (required_key_present account key url u p Hkey E1 E2 E3)
        as [v Hv].
      congruence.
Qed.

(** The run of [login] that [check_account] makes for an account. *)
Lemma check_account_unfold account settings fx (url u p : str) :
  account !! py "panel_url" = Some url →
  account !! py "username" = Some u →
  account !! py "password" = Some p →
  ∃ pid, panel_id url = inr pid ∧
    let run :=
      login u p (default 3%Z (settings !! py "retry_count"))
        (mkWorld
           (__init__ default_headers url (default 30%Z (settings !! py "timeout")))
           (net fx)) in
    let fx1 :=
      mkEffects (sent run.2)
        (logged fx ++
         [ (INFO, py "[" ++ pid ++ py "] 正在检查账号 " ++ u ++ py "...");
           status_line pid u run.1 ])
        (ran fx) in
    check_account account settings fx =
      (inr run.1,
       match status run.1 with
       | BANNED =>
           if truthy (account !! py "on_banned")
           then (Main.execute_shell_command shell
                   (default [] (account !! py "on_banned")) fx1).2
           else fx1
       | _ => fx1
       end).
Proof.
  intros E1 E2 E3. destruct (panel_id_total url) as (pid & Hpid).
  exists pid. split; [done|]. intros run fx1. subst run fx1.
  unfold Main.check_account. rewrite E1, E2, E3, Hpid.
  unfold log_record. cbn [net logged ran].
  destruct (login _ _ _ _) as [result w]. cbn [fst snd].
  destruct (status_line pid u result) as [lvl msg]. cbn [net logged ran].
  rewrite <- app_assoc. cbn [app].
  by destruct (status result).
Qed.

(** X17. With the three entries present, [check_account] returns the
    result of one [login] of a new client for the account's URL (time-out
    30 and 3 attempts unless the settings say otherwise), started on the
    requests sent so far, and the requests sent afterwards are those of
    that run. *)
Theorem check_account_runs_login account settings fx (url u p : str) :
  account !! py "panel_url" = Some url →
  account !! py "username" = Some u →
  account !! py "password" = Some p →
  let run :=
    login u p (default 3%Z (settings !! py "retry_count"))
      (mkWorld
         (__init__ default_headers url (default 30%Z (settings !! py "timeout")))
         (net fx)) in
  let out := check_account account settings fx in
  out.1 = inr run.1 ∧ net out.2 = sent run.2.
Proof.
  intros E1 E2 E3 run out. subst run out.
  destruct (check_account_unfold account settings fx url u p E1 E2 E3)
    as (pid & _ & H).
  cbv zeta in H. rewrite H. cbn [fst snd]. split; [done|].
  destruct (status _); try done.
  destruct (truthy _); [|done].
  match goal with |- context [Main.execute_shell_command shell ?c ?f] =>
    destruct (execute_shell_command_effects c f) as (Hnet & _) end.
  by rewrite Hnet.
Qed.

(** X18. [check_account] runs a shell command only for an account found
    [BANNED] that has a non-empty [on_banned] entry, and then it runs that
    entry once; in every other case it runs nothing. *)
Theorem on_banned_runs_when_banned account settings fx (url u p : str) :
  account !! py "panel_url" = Some url →
  account !! py "username" = Some u →
  account !! py "password" = Some p →
  let out := check_account account settings fx in
  ran out.2 =
    ran fx ++
    match out.1, account !! py "on_banned" with
    | inr result, Some (c :: command) =>
        if decide (status result = BANNED) then [c :: command] else []
    | _, _ => []
    end.
Proof.
  intros E1 E2 E3 out. subst out.
  destruct (check_account_unfold account settings fx url u p E1 E2 E3)
    as (pid & _ & H).
  cbv zeta in H. rewrite H. cbn [fst snd]. clear H.
  destruct (status _) eqn:Est;
    try (destruct (account !! py "on_banned") as [[|??]|]; cbn [ran];
         try case_decide; by rewrite ?app_nil_r).
  destruct (account !! py "on_banned") as [[|c command]|]; cbn [truthy ran];
    try by rewrite app_nil_r.
  rewrite decide_True by done.
  match goal with |- context [Main.execute_shell_command shell ?c ?f] =>
    destruct (execute_shell_command_effects c f) as (_ & Hran & _) end.
  by rewrite Hran.
Qed.

(** X19. [check_account] first logs, at [INFO], that it is checking the
    account, then the status line: at [INFO] for an [ACTIVE] account, at
    [ERROR] for a [NETWORK_ERROR], at [WARNING] otherwise.  That line ends
    with the details between parentheses when the result has non-empty
    details.  Nothing else is logged unless the account is [BANNED]. *)
Theorem check_account_log account settings fx (url u p : str) :
  account !! py "panel_url" = Some url →
  account !! py "username" = Some u →
  account !! py "password" = Some p →
  let out := check_account account settings fx in
  ∃ pid result level line more,
    panel_id url = inr pid ∧ out.1 = inr result ∧
    logged out.2 =
      logged fx ++
      (INFO, py "[" ++ pid ++ py "] 正在检查账号 " ++ u ++ py "...") ::
      (level, line) :: more ∧
    level = match status result with
            | ACTIVE => INFO
            | NETWORK_ERROR => ERROR
            | _ => WARNING
            end ∧
    (∀ c d, details result = Some (c :: d) →
            ∃ start, line = start ++ py " (" ++ (c :: d) ++ py ")") ∧
    (status result ≠ BANNED → more = []).
Proof.
  intros E1 E2 E3 out. subst out.
  destruct (check_account_unfold account settings fx url u p E1 E2 E3)
    as (pid & Hpid & H).
  cbv zeta in H. rewrite H. cbn [fst snd]. clear H.
  set (result := (login _ _ _ _).1).
  exists pid, result, (status_line pid u result).1, (status_line pid u result).2.
  assert (Hline : ∀ c d, details result = Some (c :: d) →
            ∃ start, (status_line pid u result).2
                     = start ++ py " (" ++ (c :: d) ++ py ")").
  { intros c d Hd. unfold status_line, with_details. rewrite Hd.
    destruct (status result); cbn [snd truthy default]; by eexists. }
  assert (Hlevel : (status_line pid u result).1 =
                   match status result with
                   | ACTIVE => INFO
                   | NETWORK_ERROR => ERROR
                   | _ => WARNING
                   end).
  { unfold status_line. by destruct (status result). }
  rewrite <- surjective_pairing.
  destruct (status result) eqn:Est;
    try (exists []; split_and!; [done..|]; cbn [logged]; done).
  destruct (truthy (account !! py "on_banned")).
  - match goal with |- context [Main.execute_shell_command shell ?c ?f] =>
      destruct (execute_shell_command_effects c f)
        as (_ & _ & more & Hlog) end.
    eexists. split_and!;
      [done|done|rewrite Hlog; cbn [logged]; by rewrite <- app_assoc|done|done|
       by intros []].
  - exists []. split_and!; [done..|by intros []].
Qed.

End ProgramFacts.

(** ** All the accounts *)

Section RunFacts.

Variable default_headers : Headers.
Variable transport : list Request → Request → Outcome.
Variable shell : list str → str → ShellOutcome.

Local Abbreviation check_account :=
  (check_account default_headers transport shell).
Local Abbreviation check_accounts :=
  (check_accounts default_headers transport shell).
Local Abbreviation main_checks := (main_checks default_headers transport shell).
Local Abbreviation reported := (reported default_headers transport).

Implicit Types (fx : Effects) (account : Account) (settings : Settings).

(** X20. [main] has exactly one result for each account, in the order of
    the configuration, whether the check of the account raised or not:
    each is reported under the account's user name, as [UNKNOWN] when a
    required entry is missing and as the result of its [login] run
    otherwise. *)
Theorem one_result_per_account (accounts : list Account) settings fx :
  Forall2 (reported settings) accounts (check_accounts accounts settings fx).1 ∧
  length (check_accounts accounts settings fx).1 = length accounts.
Proof.
  assert (H : Forall2 (reported settings) accounts
                (check_accounts accounts settings fx).1).
  2:{ split; [done|]. symmetry. by eapply Forall2_length. }
  revert fx. induction accounts as [|account accounts IH]; intros fx.
  - constructor.
  - cbn [Main.check_accounts].
    destruct (check_account_keys default_headers transport shell account
                settings fx)
      as [(k & Hk & Hknone & ->)|(url & u & p & E1 & E2 & E3)].
    + specialize (IH (log_record ERROR
                        (py "检查账号时发生错误: " ++ str_of_exn (KeyError k)) fx)).
      destruct (check_accounts accounts settings _) as [results fx'].
      cbn [fst] in *. constructor; [|done].
      split_and!; [done|done|].
      intros url u p E1 E2 E3. exfalso.
      destruct (required_key_present account k url u p Hk E1 E2 E3) as [v Hv].
      congruence.
    + destruct (check_account_unfold default_headers transport shell
                  account settings fx url u p E1 E2 E3) as (pid & _ & Hrun).
      cbv zeta in Hrun.
      destruct (check_account account settings fx) as [[e|result] fx1] eqn:Ecall;
        rewrite Hrun in Ecall; [done|].
      assert (Hres : result = (Serv00.login default_headers transport u p
                (default 3%Z (settings !! py "retry_count"))
                (mkWorld
                   (__init__ default_headers url
                      (default 30%Z (settings !! py "timeout")))
                   (net fx))).1) by congruence.
      clear Ecall Hrun. specialize (IH fx1).
      destruct (check_accounts accounts settings fx1) as [results fx'].
      cbn [fst] in *. constructor; [|done].
      split_and!.
      * rewrite E2, Hres. cbn [default from_option id]. unfold Serv00.login.
        apply (login_loop_keeps default_headers transport).
      * intros (key & Hkey & Hnone). exfalso.
        destruct (required_key_present account key url u p Hkey E1 E2 E3)
          as [v Hv].
        congruence.
      * intros url' u' p' E1' E2' E3'. exists (net fx). congruence.
Qed.

Lemma count_status_zero (sts : list AccountStatus) (results : list LoginResult) :
  count_status sts results = 0%Z ↔ Forall (λ r, status r ∉ sts) results.
Proof.
  unfold count_status. induction results as [|r results IH]; cbn [List.filter].
  - split; [constructor|done].
  - destruct (bool_decide_reflect (status r ∈ sts)) as [Hin|Hout].
    + split; [simpl; lia|]. by intros [? _]%Forall_cons.
    + rewrite IH. split; [by constructor|by intros [_ ?]%Forall_cons].
Qed.

Lemma count_status_positive (sts : list AccountStatus)
    (results : list LoginResult) (r : LoginResult) :
  r ∈ results → status r ∈ sts → (0 < count_status sts results)%Z.
Proof.
  intros Hr Hst.
  assert (count_status sts results ≠ 0%Z).
  { intros H0%count_status_zero. rewrite Forall_forall in H0. by apply (H0 r). }
  unfold count_status in *. lia.
Qed.

(** The exit status in terms of the counts. *)
Lemma main_checks_exit (accounts : list Account) settings fx :
  let results := (check_accounts accounts settings (announced fx)).1 in
  (main_checks accounts settings fx).1 =
  if ((0 <? count_status [BANNED] results) ||
      (0 <? count_status [LOGIN_FAILED; NETWORK_ERROR; UNKNOWN] results))%Z
  then 1%Z else 0%Z.
Proof.
  intros results. subst results. unfold Main.main_checks.
  change (log_record INFO RULE
            (log_record INFO (py "开始检查 serv00 账号状态...")
               (log_record INFO RULE fx))) with (announced fx).
  destruct (check_accounts accounts settings (announced fx)) as [results fx'].
  cbn [fst]. by destruct (_ || _).
Qed.

(** An account without a required entry leaves an [UNKNOWN] result. *)
Lemma check_accounts_unknown (accounts : list Account) settings fx account
    (key : str) :
  account ∈ accounts → key ∈ REQUIRED_KEYS → account !! key = None →
  ∃ r, r ∈ (check_accounts accounts settings fx).1 ∧ status r = UNKNOWN.
Proof.
  intros Hacc Hkey Hnone. revert fx.
  induction accounts as [|a accounts IH]; intros fx.
  - by apply elem_of_nil in Hacc.
  - cbn [Main.check_accounts].
    apply elem_of_cons in Hacc as [<-|Hacc].
    + destruct (check_account_keys default_headers transport shell account
                  settings fx)
        as [(k & Hk & Hknone & ->)|(url & u & p & E1 & E2 & E3)].
      * destruct (check_accounts accounts settings _) as [results fx'].
        eexists. split; [apply list_elem_of_here|done].
      * destruct (required_key_present account key url u p Hkey E1 E2 E3)
          as [v Hv].
        congruence.
    + destruct (check_account a settings fx) as [[e|r0] fx1].
      * destruct (IH Hacc (log_record ERROR
                             (py "检查账号时发生错误: " ++ str_of_exn e) fx1))
          as (r & Hr & Hst).
        destruct (check_accounts accounts settings _) as [results fx'].
        exists r. split; [by apply list_elem_of_further|done].
      * destruct (IH Hacc fx1) as (r & Hr & Hst).
        destruct (check_accounts accounts settings _) as [results fx'].
        exists r. split; [by apply list_elem_of_further|done].
Qed.


(** X22. The exit status of [main] is 0 when every account is [ACTIVE]
    (also when there is no account) and 1 otherwise. *)
Theorem exit_status_zero_iff_all_active (accounts : list Account) settings fx :
  let results := (check_accounts accounts settings (announced fx)).1 in
  let code := (main_checks accounts settings fx).1 in
  (code = 0%Z ↔ Forall (λ r, status r = ACTIVE) results) ∧
  (code = 0%Z ∨ code = 1%Z).
Proof.
  intros results code. subst results code.
  pose proof (main_checks_exit accounts settings fx) as Hexit. cbv zeta in Hexit.
  rewrite Hexit. clear Hexit.
  set (results := (check_accounts accounts settings (announced fx)).1).
  pose proof (count_status_zero [BANNED] results) as Hb.
  pose proof (count_status_zero [LOGIN_FAILED; NETWORK_ERROR; UNKNOWN] results) as Hf.
  assert (Hnn : ∀ sts, (0 ≤ count_status sts results)%Z)
    by (intros; unfold count_status; lia).
  pose proof (Hnn [BANNED]). pose proof (Hnn [LOGIN_FAILED; NETWORK_ERROR; UNKNOWN]).
  destruct (Z.ltb_spec 0 (count_status [BANNED] results)) as [Hb0|Hb0];
    [|destruct (Z.ltb_spec 0
                  (count_status [LOGIN_FAILED; NETWORK_ERROR; UNKNOWN] results))
        as [Hf0|Hf0]]; cbn [orb].
  - split; [|by right]. split; [done|]. intros Hall. exfalso.
    assert (count_status [BANNED] results = 0%Z); [|lia].
    apply Hb. eapply Forall_impl; [exact Hall|]. intros r ->.
    rewrite list_elem_of_singleton. done.
  - split; [|by right]. split; [done|]. intros Hall. exfalso.
    assert (count_status [LOGIN_FAILED; NETWORK_ERROR; UNKNOWN] results = 0%Z);
      [|lia].
    apply Hf. eapply Forall_impl; [exact Hall|]. intros r ->.
    rewrite !elem_of_cons, elem_of_nil. intuition discriminate.
  - split; [|by left]. split; [|done]. intros _.
    assert (Hb' : count_status [BANNED] results = 0%Z) by lia.
    assert (Hf' : count_status [LOGIN_FAILED; NETWORK_ERROR; UNKNOWN] results = 0%Z)
      by lia.
    apply Hb in Hb'. apply Hf in Hf'.
    apply Forall_forall. intros r Hr.
    rewrite Forall_forall in Hb', Hf'. specialize (Hb' r Hr). specialize (Hf' r Hr).
    destruct (status r) eqn:E; [done|exfalso..];
      [apply Hb'|apply Hf'|apply Hf'|apply Hf']; by repeat constructor.
Qed.

(** X23. One account with a required entry missing is enough for the exit
    status 1, whatever the other accounts are. *)
Theorem missing_key_exits_with_one (accounts : list Account) settings fx
    account (key : str) :
  account ∈ accounts → key ∈ REQUIRED_KEYS → account !! key = None →
  (main_checks accounts settings fx).1 = 1%Z.
Proof.
  intros Hacc Hkey Hnone.
  pose proof (main_checks_exit accounts settings fx) as Hexit. cbv zeta in Hexit.
  rewrite Hexit. clear Hexit.
  destruct (check_accounts_unknown accounts settings (announced fx) account key
              Hacc Hkey Hnone) as (r & Hr & Hst).
  assert (0 < count_status [LOGIN_FAILED; NETWORK_ERROR; UNKNOWN]
                (check_accounts accounts settings (announced fx)).1)%Z as Hpos.
  { apply (count_status_positive _ _ r Hr). rewrite Hst. by repeat constructor. }
  apply Z.ltb_lt in Hpos. rewrite Hpos. by rewrite orb_true_r.
Qed.

End RunFacts.

(** ** The logger *)

Section LoggerFacts.

Lemma setup_logger_configured (name : str) (log_file : option str)
    (reg : Registry) (logger : PyLogger) :
  logger_level logger = Some DEBUG → handlers logger ≠ [] →
  setup_logger name log_file (<[name := logger]> reg)
  = (logger, <[name := logger]> reg).
Proof.
  destruct logger as [lv hs]. cbn [logger_level handlers]. intros -> Hhs.
  unfold setup_logger, getLogger. rewrite lookup_insert_eq.
  cbn [default from_option id handlers]. destruct hs as [|h hs]; [done|].
  by rewrite insert_insert_eq.
Qed.

(** X24. Setting the logger up again changes nothing: the second call
    adds no handler, whatever log file it names, and returns the logger
    of the first call. *)
Theorem setup_logger_again (name : str) (log_file log_file' : option str)
    (reg : Registry) :
  setup_logger name log_file' (setup_logger name log_file reg).2
  = setup_logger name log_file reg.
Proof.
  unfold setup_logger at 2 3. cbn [handlers].
  destruct (handlers (getLogger name reg)) as [|h hs] eqn:E; cbn [snd].
  - destruct (truthy log_file); by apply setup_logger_configured.
  - by apply setup_logger_configured.
Qed.

(** X25. For a logger that had no handler, [setup_logger] installs the
    console handler and, when a non-empty log file is named, the file
    handler after it.  Records at [DEBUG] then reach the file handler
    only, never the console; records at the other levels reach every
    handler. *)
Theorem setup_logger_handlers (name : str) (log_file : option str)
    (reg : Registry) :
  handlers (getLogger name reg) = [] →
  let logger := (setup_logger name log_file reg).1 in
  let console := mkHandler Stdout INFO LOG_FORMAT LOG_DATEFMT in
  let files :=
    match log_file with
    | Some (c :: path) => [mkHandler (File (c :: path)) DEBUG LOG_FORMAT LOG_DATEFMT]
    | _ => []
    end in
  handlers logger = console :: files ∧
  receivers logger DEBUG = Some files ∧
  ∀ l, l ≠ DEBUG → receivers logger l = Some (console :: files).
Proof.
  intros Hfresh logger console files. subst logger console files.
  unfold setup_logger. cbn [handlers]. rewrite Hfresh.
  destruct log_file as [[|c path]|]; cbn [truthy fst handlers app default from_option id];
    (split_and!; [done|done|]); intros [] Hl; done.
Qed.

End LoggerFacts.

Lemma setup_logger_handlers_witness :
  let logger := (setup_logger (py "serv00") (Some (py "serv00.log")) ∅).1 in
  handlers (getLogger (py "serv00") ∅) = [] ∧
  length (handlers logger) = 2%nat ∧
  (target <$> handlers logger) = [Stdout; File (py "serv00.log")] ∧
  (List.map target <$> receivers logger DEBUG) = Some [File (py "serv00.log")].
Proof.
  intros logger.
  assert (Hfresh : handlers (getLogger (py "serv00") ∅) = []) by reflexivity.
  pose proof (setup_logger_handlers (py "serv00") (Some (py "serv00.log")) ∅
                Hfresh) as H.
  cbv zeta in H. destruct H as (Hh & Hd & _).
  split_and!; [exact Hfresh| | |].
  - subst logger. rewrite Hh. vm_compute. reflexivity.
  - subst logger. rewrite Hh. vm_compute. reflexivity.
  - subst logger. rewrite Hd. vm_compute. reflexivity.
Defined.

(** ** The further properties on concrete runs *)

Lemma token_comes_from_page_witness :
  (get_csrf_token transport_post_fails example_world).1 = Some (py "abc123XYZ") ∧
  py "abc123XYZ" ≠ [] ∧ all_in (not_in [dq]) (py "abc123XYZ").
Proof.
  assert (H : (get_csrf_token transport_post_fails example_world).1
              = Some (py "abc123XYZ")) by (vm_compute; reflexivity).
  split; [exact H|].
  destruct (token_comes_from_page transport_post_fails example_world _ H)
    as (Hne & Hq & _).
  split; assumption.
Defined.

Lemma post_carries_token_witness :
  ∃ post,
    sent (_do_login transport_post_fails alice secret example_world).2
      = [token_request (self example_world); post] ∧
    req_data post =
      [ (py "csrfmiddlewaretoken", py "abc123XYZ"); (py "username", alice);
        (py "password", secret); (py "next", py "/") ].
Proof.
  assert (H : (get_csrf_token transport_post_fails example_world).1
              = Some (py "abc123XYZ")) by (vm_compute; reflexivity).
  destruct (post_carries_token transport_post_fails alice secret example_world
              _ H) as (post & Hs & _ & _ & Hd & _).
  exists post. split; [exact Hs|exact Hd].
Defined.

Lemma check_account_missing_key_witness :
  check_account ∅ transport_banned shell_ok account_no_password
    no_settings no_effects = (inl (KeyError (py "password")), no_effects) ∧
  check_account ∅ transport_banned shell_ok account_no_username
    no_settings no_effects = (inl (KeyError (py "username")), no_effects) ∧
  check_account ∅ transport_banned shell_ok account_only_url
    no_settings no_effects = (inl (KeyError (py "username")), no_effects) ∧
  check_account ∅ transport_banned shell_ok ∅
    no_settings no_effects = (inl (KeyError (py "panel_url")), no_effects).
Proof.
  split_and!.
  - destruct (check_account_missing_key ∅ transport_banned shell_ok
                account_no_password no_settings no_effects) as (_ & _ & H & _).
    apply (H (py "https://panel7.serv00.com") (py "bob")); vm_compute; reflexivity.
  - destruct (check_account_missing_key ∅ transport_banned shell_ok
                account_no_username no_settings no_effects) as (_ & H & _).
    apply (H (py "https://panel3.serv00.com")); vm_compute; reflexivity.
  - destruct (check_account_missing_key ∅ transport_banned shell_ok
                account_only_url no_settings no_effects) as (_ & H & _).
    apply (H (py "https://panel9.serv00.com")); vm_compute; reflexivity.
  - destruct (check_account_missing_key ∅ transport_banned shell_ok
                ∅ no_settings no_effects) as (H & _).
    apply H. vm_compute. reflexivity.
Defined.

Lemma account_full_entries :
  account_full !! py "panel_url" = Some (py "https://panel12.serv00.com") ∧
  account_full !! py "username" = Some alice ∧
  account_full !! py "password" = Some secret.
Proof. split_and!; vm_compute; reflexivity. Qed.

Lemma check_account_runs_login_witness :
  let out := check_account ∅ transport_banned shell_ok account_full no_settings
               no_effects in
  (∃ result, out.1 = inr result ∧ status result = BANNED) ∧
  length (net out.2) = 2%nat.
Proof.
  intros out. destruct account_full_entries as (E1 & E2 & E3).
  destruct (check_account_runs_login ∅ transport_banned shell_ok account_full
              no_settings no_effects _ _ _ E1 E2 E3) as [Hres Hnet].
  split.
  - eexists. split; [exact Hres|]. vm_compute. reflexivity.
  - subst out. rewrite Hnet. vm_compute. reflexivity.
Defined.

Lemma on_banned_runs_when_banned_witness :
  ran (check_account ∅ transport_banned shell_ok account_full no_settings
         no_effects).2 = [py "echo banned"] ∧
  ran (check_account ∅ (transport_answers (py "<h1>Dashboard</h1>")) shell_ok
         account_full no_settings no_effects).2 = [].
Proof.
  destruct account_full_entries as (E1 & E2 & E3). split.
  - rewrite (on_banned_runs_when_banned ∅ transport_banned shell_ok account_full
               no_settings no_effects _ _ _ E1 E2 E3).
    vm_compute. reflexivity.
  - rewrite (on_banned_runs_when_banned ∅ (transport_answers (py "<h1>Dashboard</h1>"))
               shell_ok account_full no_settings no_effects _ _ _ E1 E2 E3).
    vm_compute. reflexivity.
Defined.

Lemma check_account_log_witness :
  let out := check_account ∅ transport_banned shell_ok account_full no_settings
               no_effects in
  (fst <$> logged out.2) = [INFO; WARNING; INFO; DEBUG] ∧
  ∃ pid, panel_id (py "https://panel12.serv00.com") = inr pid ∧
         (logged out.2) !! 0%nat
           = Some (INFO, py "[" ++ pid ++ py "] 正在检查账号 " ++ alice ++ py "...").
Proof.
  intros out. destruct account_full_entries as (E1 & E2 & E3).
  split; [vm_compute; reflexivity|].
  destruct (check_account_log ∅ transport_banned shell_ok account_full
              no_settings no_effects _ _ _ E1 E2 E3)
    as (pid & result & level & line & more & Hpid & _ & Hlog & _).
  exists pid. split; [exact Hpid|]. subst out. rewrite Hlog. reflexivity.
Defined.

Lemma missing_key_exits_with_one_witness :
  (main_checks ∅ (transport_answers (py "<h1>Dashboard</h1>")) shell_ok
     [account_full; account_no_password] no_settings no_effects).1 = 1%Z ∧
  (main_checks ∅ (transport_answers (py "<h1>Dashboard</h1>")) shell_ok
     [account_full] no_settings no_effects).1 = 0%Z.
Proof.
  split; [|vm_compute; reflexivity].
  apply (missing_key_exits_with_one ∅ _ shell_ok _ no_settings no_effects
           account_no_password (py "password")).
  - apply list_elem_of_further, list_elem_of_here.
  - unfold REQUIRED_KEYS. do 2 apply list_elem_of_further. apply list_elem_of_here.
  - vm_compute. reflexivity.
Defined.
